(** * The driving game: vehicle physics, collision check, camera, best time

    A shallow embedding of [src/game.js] (the race variant, "RACING GAME
    V5.0 - OBSTACLE COURSE") and proofs of the properties its specification
    states about it.  The drift variant that the source also holds ("RACING
    GAME V4.0 - DRIFT MODE") has the same steering, acceleration, drift and
    camera code with other constants, and neither ground level, collision
    check nor race; its frame is in the module [DriftMode].

    Numbers.  JavaScript numbers are modelled as the real numbers [R] of the
    standard library: [Math.sin], [Math.cos], [Math.abs], [Math.min] and
    [Math.max] are [sin], [cos], [Rabs], [Rmin] and [Rmax].  Rounding,
    infinities and NaN of IEEE doubles are outside the model; the one place
    where the source can meet NaN ([parseFloat] of the stored best time) is
    modelled with an [option].

    Host and library code.  The functions of three.js that the source calls
    are written out where they are arithmetic ([MathUtils.lerp],
    [MathUtils.clamp], [Vector3], [Box3]); the ones that depend on the loaded
    3D asset or on the renderer ([Box3.setFromObject],
    [Camera.getWorldDirection]) and the JavaScript built-ins [parseFloat] and
    [Number.prototype.toFixed] are fields of the class [Host]. *)

From Stdlib Require Import Reals Lra List Bool String Permutation.
From Stdlib Require Import Ascii Arith Lia.
Import ListNotations.

Open Scope R_scope.

(** ** Comparisons of numbers as booleans *)

Definition Rltb (a b : R) : bool := if Rlt_dec a b then true else false.
Definition Rleb (a b : R) : bool := if Rle_dec a b then true else false.

Infix "<?" := Rltb (at level 70, no associativity) : R_scope.
Infix "<=?" := Rleb (at level 70, no associativity) : R_scope.
Notation "a >? b" := (Rltb b a) (at level 70, no associativity) : R_scope.
Notation "a >=? b" := (Rleb b a) (at level 70, no associativity) : R_scope.

(** ** three.js: [MathUtils] *)

(** [MathUtils.lerp(x, y, t)] is [(1 - t) * x + t * y]. *)
Definition lerp (a b t : R) : R := (1 - t) * a + t * b.

(** [MathUtils.clamp(value, min, max)] is
    [Math.max(min, Math.min(max, value))]. *)
Definition clamp (value lo hi : R) : R := Rmax lo (Rmin hi value).

(** ** three.js: [Vector3] *)

Record Vector3 : Type := mkVector3 { x : R; y : R; z : R }.

Module Vec.
Definition add (p q : Vector3) : Vector3 :=
  mkVector3 (x p + x q) (y p + y q) (z p + z q).
Definition sub (p q : Vector3) : Vector3 :=
  mkVector3 (x p - x q) (y p - y q) (z p - z q).
Definition multiplyScalar (p : Vector3) (s : R) : Vector3 :=
  mkVector3 (x p * s) (y p * s) (z p * s).
(** [this.x += (v.x - this.x) * alpha], and the same for [y] and [z]. *)
Definition lerp (p q : Vector3) (alpha : R) : Vector3 :=
  mkVector3 (x p + (x q - x p) * alpha)
            (y p + (y q - y p) * alpha)
            (z p + (z q - z p) * alpha).
Definition setX (p : Vector3) (v : R) : Vector3 := mkVector3 v (y p) (z p).
Definition setY (p : Vector3) (v : R) : Vector3 := mkVector3 (x p) v (z p).
Definition setZ (p : Vector3) (v : R) : Vector3 := mkVector3 (x p) (y p) v.
End Vec.

(** ** three.js: [Box3] *)

Record Box3 : Type := mkBox3 { min : Vector3; max : Vector3 }.

Module Box.
(** [isEmpty]: [max.x < min.x || max.y < min.y || max.z < min.z]. *)
Definition isEmpty (b : Box3) : bool :=
  (x (max b) <? x (min b)) || (y (max b) <? y (min b))
  || (z (max b) <? z (min b)).

(** [getCenter]: the origin for an empty box, else [(min + max) * 0.5]. *)
Definition getCenter (b : Box3) : Vector3 :=
  if isEmpty b then mkVector3 0 0 0
  else Vec.multiplyScalar (Vec.add (min b) (max b)) 0.5.

(** [getSize]: the zero vector for an empty box, else [max - min]. *)
Definition getSize (b : Box3) : Vector3 :=
  if isEmpty b then mkVector3 0 0 0 else Vec.sub (max b) (min b).

(** [setFromCenterAndSize]: [halfSize = size * 0.5],
    [min = center - halfSize], [max = center + halfSize]. *)
Definition setFromCenterAndSize (center size : Vector3) : Box3 :=
  let halfSize := Vec.multiplyScalar size 0.5 in
  mkBox3 (Vec.sub center halfSize) (Vec.add center halfSize).

(** [intersectsBox]: the boxes overlap on all three axes, faces included. *)
Definition intersectsBox (a b : Box3) : bool :=
  (x (max b) >=? x (min a)) && (x (min b) <=? x (max a))
  && (y (max b) >=? y (min a)) && (y (min b) <=? y (max a))
  && (z (max b) >=? z (min a)) && (z (min b) <=? z (max a)).
End Box.

(** ** The vehicle state

    The object [vehicleState] of the source: the kinematic and drift state,
    the tuning constants, the camera constants and the five control flags. *)

Record VehicleState : Type := mkVehicleState {
  (* Position and rotation *)
  rotation : R;
  velocity : R;
  steerAngle : R;
  (* Drift *)
  driftAngle : R;
  driftVelocity : R;
  isDrifting : bool;
  driftFactor : R;
  (* Car settings *)
  maxSpeed : R;
  acceleration : R;
  deceleration : R;
  brakeForce : R;
  steerSpeed : R;
  maxSteerAngle : R;
  friction : R;
  driftFriction : R;
  driftMultiplier : R;
  (* Camera *)
  cameraDistance : R;
  cameraHeight : R;
  cameraLookAhead : R;
  cameraSmooth : R;
  (* Controls *)
  accelerating : bool;
  braking : bool;
  steeringLeft : bool;
  steeringRight : bool;
  handbrake : bool
}.

(** The object literal of the race variant. *)
Definition initialVehicleState : VehicleState := {|
  rotation := 0; velocity := 0; steerAngle := 0;
  driftAngle := 0; driftVelocity := 0; isDrifting := false; driftFactor := 0;
  maxSpeed := 25; acceleration := 15; deceleration := 12; brakeForce := 18;
  steerSpeed := 0.8; maxSteerAngle := 0.15; friction := 5;
  driftFriction := 0.95; driftMultiplier := 2.5;
  cameraDistance := 8; cameraHeight := 4; cameraLookAhead := 2;
  cameraSmooth := 8;
  accelerating := false; braking := false; steeringLeft := false;
  steeringRight := false; handbrake := false
|}.

(** Assignments to single fields of [vehicleState]. *)

Definition set_rotation (v : R) (s : VehicleState) : VehicleState :=
  mkVehicleState v (velocity s) (steerAngle s) (driftAngle s)
    (driftVelocity s) (isDrifting s) (driftFactor s) (maxSpeed s)
    (acceleration s) (deceleration s) (brakeForce s) (steerSpeed s)
    (maxSteerAngle s) (friction s) (driftFriction s) (driftMultiplier s)
    (cameraDistance s) (cameraHeight s) (cameraLookAhead s) (cameraSmooth s)
    (accelerating s) (braking s) (steeringLeft s) (steeringRight s)
    (handbrake s).

Definition set_velocity (v : R) (s : VehicleState) : VehicleState :=
  mkVehicleState (rotation s) v (steerAngle s) (driftAngle s)
    (driftVelocity s) (isDrifting s) (driftFactor s) (maxSpeed s)
    (acceleration s) (deceleration s) (brakeForce s) (steerSpeed s)
    (maxSteerAngle s) (friction s) (driftFriction s) (driftMultiplier s)
    (cameraDistance s) (cameraHeight s) (cameraLookAhead s) (cameraSmooth s)
    (accelerating s) (braking s) (steeringLeft s) (steeringRight s)
    (handbrake s).

Definition set_steerAngle (v : R) (s : VehicleState) : VehicleState :=
  mkVehicleState (rotation s) (velocity s) v (driftAngle s)
    (driftVelocity s) (isDrifting s) (driftFactor s) (maxSpeed s)
    (acceleration s) (deceleration s) (brakeForce s) (steerSpeed s)
    (maxSteerAngle s) (friction s) (driftFriction s) (driftMultiplier s)
    (cameraDistance s) (cameraHeight s) (cameraLookAhead s) (cameraSmooth s)
    (accelerating s) (braking s) (steeringLeft s) (steeringRight s)
    (handbrake s).

Definition set_driftAngle (v : R) (s : VehicleState) : VehicleState :=
  mkVehicleState (rotation s) (velocity s) (steerAngle s) v
    (driftVelocity s) (isDrifting s) (driftFactor s) (maxSpeed s)
    (acceleration s) (deceleration s) (brakeForce s) (steerSpeed s)
    (maxSteerAngle s) (friction s) (driftFriction s) (driftMultiplier s)
    (cameraDistance s) (cameraHeight s) (cameraLookAhead s) (cameraSmooth s)
    (accelerating s) (braking s) (steeringLeft s) (steeringRight s)
    (handbrake s).

Definition set_driftVelocity (v : R) (s : VehicleState) : VehicleState :=
  mkVehicleState (rotation s) (velocity s) (steerAngle s) (driftAngle s)
    v (isDrifting s) (driftFactor s) (maxSpeed s)
    (acceleration s) (deceleration s) (brakeForce s) (steerSpeed s)
    (maxSteerAngle s) (friction s) (driftFriction s) (driftMultiplier s)
    (cameraDistance s) (cameraHeight s) (cameraLookAhead s) (cameraSmooth s)
    (accelerating s) (braking s) (steeringLeft s) (steeringRight s)
    (handbrake s).

Definition set_isDrifting (v : bool) (s : VehicleState) : VehicleState :=
  mkVehicleState (rotation s) (velocity s) (steerAngle s) (driftAngle s)
    (driftVelocity s) v (driftFactor s) (maxSpeed s)
    (acceleration s) (deceleration s) (brakeForce s) (steerSpeed s)
    (maxSteerAngle s) (friction s) (driftFriction s) (driftMultiplier s)
    (cameraDistance s) (cameraHeight s) (cameraLookAhead s) (cameraSmooth s)
    (accelerating s) (braking s) (steeringLeft s) (steeringRight s)
    (handbrake s).

Definition set_driftFactor (v : R) (s : VehicleState) : VehicleState :=
  mkVehicleState (rotation s) (velocity s) (steerAngle s) (driftAngle s)
    (driftVelocity s) (isDrifting s) v (maxSpeed s)
    (acceleration s) (deceleration s) (brakeForce s) (steerSpeed s)
    (maxSteerAngle s) (friction s) (driftFriction s) (driftMultiplier s)
    (cameraDistance s) (cameraHeight s) (cameraLookAhead s) (cameraSmooth s)
    (accelerating s) (braking s) (steeringLeft s) (steeringRight s)
    (handbrake s).

(** The five control flags, as the key and touch handlers leave them. *)
Record ControlInput : Type := mkControlInput {
  in_accelerating : bool;
  in_braking : bool;
  in_steeringLeft : bool;
  in_steeringRight : bool;
  in_handbrake : bool
}.

Definition set_controls (c : ControlInput) (s : VehicleState) : VehicleState :=
  mkVehicleState (rotation s) (velocity s) (steerAngle s) (driftAngle s)
    (driftVelocity s) (isDrifting s) (driftFactor s) (maxSpeed s)
    (acceleration s) (deceleration s) (brakeForce s) (steerSpeed s)
    (maxSteerAngle s) (friction s) (driftFriction s) (driftMultiplier s)
    (cameraDistance s) (cameraHeight s) (cameraLookAhead s) (cameraSmooth s)
    (in_accelerating c) (in_braking c) (in_steeringLeft c)
    (in_steeringRight c) (in_handbrake c).

(** ** Scene objects *)

(** The car: an [Object3D] of which the source reads and writes the
    position, the Euler angles [rotation.x], [rotation.y], [rotation.z] and
    the visibility. *)
Module Car.
Record t : Type := mk {
  position : Vector3;
  rotation : Vector3;
  visible : bool
}.
Definition set_position (p : Vector3) (c : t) : t :=
  mk p (rotation c) (visible c).
Definition set_rotation (r : Vector3) (c : t) : t :=
  mk (position c) r (visible c).
Definition set_visible (b : bool) (c : t) : t :=
  mk (position c) (rotation c) b.
End Car.

(** The camera.  [camera.lookAt(target)] turns the camera, standing at
    [eye], towards [target]: the orientation it leaves is a function of the
    two points, and is kept as that pair. *)
Module Camera.
Inductive Orientation : Type :=
| Default
| LookAt (eye target : Vector3).
Record t : Type := mk {
  position : Vector3;
  orientation : Orientation
}.
Definition set_position (p : Vector3) (c : t) : t := mk p (orientation c).
Definition lookAt (target : Vector3) (c : t) : t :=
  mk (position c) (LookAt (position c) target).
End Camera.

(** ** The game state *)

Record TrackSegment : Type := mkTrackSegment {
  start : R;
  end_ : R;
  xOffset : R;
  width : R
}.

Record GameState : Type := mkGameState {
  isPlaying : bool;
  isCountingDown : bool;
  countdown : nat;
  raceTime : R;
  bestTime : option string;
  hasWon : bool;
  hasLost : bool;
  freeRoam : bool;
  startPosition : Vector3;
  finishLineZ : R;
  carGroundLevel : R;
  trackSegments : list TrackSegment
}.

(** The segments that [createRaceTrack] assigns. *)
Definition raceTrackSegments : list TrackSegment :=
  [ mkTrackSegment 0 (-50) 0 35;
    mkTrackSegment (-50) (-80) 10 35;
    mkTrackSegment (-80) (-120) 20 35;
    mkTrackSegment (-120) (-160) 20 35;
    mkTrackSegment (-160) (-190) 0 35;
    mkTrackSegment (-190) (-230) (-20) 35;
    mkTrackSegment (-230) (-260) (-20) 35;
    mkTrackSegment (-260) (-280) (-10) 35;
    mkTrackSegment (-280) (-320) 0 35 ].

(** The object literal [gameState], with the track already created;
    [stored] is what [localStorage.getItem('bestTime')] returned. *)
Definition initialGameState (stored : option string) : GameState := {|
  isPlaying := false; isCountingDown := false; countdown := 3;
  raceTime := 0;
  bestTime := stored;
  hasWon := false; hasLost := false; freeRoam := false;
  startPosition := mkVector3 0 0 0;
  finishLineZ := -300;
  carGroundLevel := 0;
  trackSegments := raceTrackSegments
|}.

(** The positions that [createObstacles] gives to the tree groups. *)
Definition obstaclePositions : list Vector3 :=
  [ mkVector3 (-7) 0 (-20); mkVector3 5 0 (-30); mkVector3 (-2) 0 (-45);
    mkVector3 15 0 (-70); mkVector3 25 0 (-80); mkVector3 20 0 (-85);
    mkVector3 15 0 (-110); mkVector3 20 0 (-130); mkVector3 10 0 (-120);
    mkVector3 (-5) 0 (-170); mkVector3 (-15) 0 (-180); mkVector3 0 0 (-190);
    mkVector3 (-25) 0 (-210); mkVector3 (-20) 0 (-230);
    mkVector3 (-12) 0 (-245);
    mkVector3 (-8) 0 (-260); mkVector3 5 0 (-270); mkVector3 0 0 (-280) ].

(** ** The page elements the game writes to

    [messageElement.innerHTML] is a sequence of blocks of markup, kept as
    the blocks and the values interpolated into them. *)

Inductive MessageBlock : Type :=
| YouWon (time : string)
| NewRecord (previous : string)
| YouLost (message : string).

Record Ui : Type := mkUi {
  messageHTML : list MessageBlock;
  messageShown : bool;
  timerText : string;
  timerShown : bool;
  recordTime : option string
}.

(** ** The world: every object the functions below read or write *)

Record World : Type := mkWorld {
  car : option Car.t;
  carBoundingBox : option Box3;
  (* world positions of the obstacle groups, in array order *)
  obstacles : list Vector3;
  camera : Camera.t;
  gameState : GameState;
  vehicleState : VehicleState;
  (* localStorage, key 'bestTime' *)
  storedBestTime : option string;
  ui : Ui;
  (* positions at which createExplosion was called; the particles, the
     flash and the camera shake it starts are random or timer driven *)
  explosions : list Vector3
}.

Definition set_car (v : option Car.t) (w : World) : World :=
  mkWorld v (carBoundingBox w) (obstacles w) (camera w) (gameState w)
    (vehicleState w) (storedBestTime w) (ui w) (explosions w).
Definition set_carBoundingBox (v : option Box3) (w : World) : World :=
  mkWorld (car w) v (obstacles w) (camera w) (gameState w)
    (vehicleState w) (storedBestTime w) (ui w) (explosions w).
Definition set_obstacles (v : list Vector3) (w : World) : World :=
  mkWorld (car w) (carBoundingBox w) v (camera w) (gameState w)
    (vehicleState w) (storedBestTime w) (ui w) (explosions w).
Definition set_camera (v : Camera.t) (w : World) : World :=
  mkWorld (car w) (carBoundingBox w) (obstacles w) v (gameState w)
    (vehicleState w) (storedBestTime w) (ui w) (explosions w).
Definition set_gameState (v : GameState) (w : World) : World :=
  mkWorld (car w) (carBoundingBox w) (obstacles w) (camera w) v
    (vehicleState w) (storedBestTime w) (ui w) (explosions w).
Definition set_vehicleState (v : VehicleState) (w : World) : World :=
  mkWorld (car w) (carBoundingBox w) (obstacles w) (camera w) (gameState w)
    v (storedBestTime w) (ui w) (explosions w).
Definition set_storedBestTime (v : option string) (w : World) : World :=
  mkWorld (car w) (carBoundingBox w) (obstacles w) (camera w) (gameState w)
    (vehicleState w) v (ui w) (explosions w).
Definition set_ui (v : Ui) (w : World) : World :=
  mkWorld (car w) (carBoundingBox w) (obstacles w) (camera w) (gameState w)
    (vehicleState w) (storedBestTime w) v (explosions w).
Definition set_explosions (v : list Vector3) (w : World) : World :=
  mkWorld (car w) (carBoundingBox w) (obstacles w) (camera w) (gameState w)
    (vehicleState w) (storedBestTime w) (ui w) v.

(** ** What the host provides *)

Class Host : Type := {
  (** [new Box3().setFromObject(car)]: the world-axis-aligned box around the
      loaded car model in its current pose. *)
  setFromObject : Car.t -> Box3;
  (** [camera.getWorldDirection(v)]: the direction the camera looks in. *)
  getWorldDirection : Camera.Orientation -> Vector3;
  (** [parseFloat(s)]; [None] is NaN. *)
  parseFloat : string -> option R;
  (** [n.toFixed(2)]. *)
  toFixed2 : R -> string;
  (** [parseFloat('')] is NaN. *)
  parseFloat_empty : parseFloat EmptyString = None
}.

(** ** The physics of one frame: [updateVehiclePhysics], steering to tilt *)

(** [targetSteerAngle]: the sum of the contribution of each steering flag. *)
Definition targetSteerAngle (vs : VehicleState) : R :=
  (if steeringLeft vs then maxSteerAngle vs else 0)
  + (if steeringRight vs then - maxSteerAngle vs else 0).

(** "Steering". *)
Definition steer (delta : R) (vs : VehicleState) : VehicleState :=
  set_steerAngle
    (lerp (steerAngle vs) (targetSteerAngle vs) (steerSpeed vs * delta * 3))
    vs.

(** "Acceleration and braking", with the natural deceleration. *)
Definition accelerate (delta : R) (vs : VehicleState) : VehicleState :=
  if accelerating vs then
    set_velocity (velocity vs + acceleration vs * delta) vs
  else if braking vs then
    set_velocity (velocity vs - brakeForce vs * delta) vs
  else if velocity vs >? 0 then
    let vs := set_velocity (velocity vs - friction vs * delta) vs in
    if velocity vs <? 0 then set_velocity 0 vs else vs
  else if velocity vs <? 0 then
    let vs := set_velocity (velocity vs + friction vs * delta) vs in
    if velocity vs >? 0 then set_velocity 0 vs else vs
  else vs.

(** The condition of the "Drift system". *)
Definition driftActive (vs : VehicleState) : bool :=
  handbrake vs && (Rabs (velocity vs) >? 3).

(** "Drift system". *)
Definition drift (delta : R) (st : VehicleState * Car.t)
  : VehicleState * Car.t :=
  let (vs, c) := st in
  if driftActive vs then
    let vs := set_isDrifting true vs in
    let vs := set_driftFactor (Rmin (driftFactor vs + delta * 3) 1) vs in
    let vs := set_velocity (velocity vs * driftFriction vs) vs in
    let vs :=
      if steeringLeft vs || steeringRight vs then
        let driftDirection := if steeringLeft vs then 1 else -1 in
        let vs :=
          set_driftAngle
            (driftAngle vs + driftDirection * velocity vs * 0.05 * delta) vs in
        set_driftVelocity (velocity vs * 0.3) vs
      else vs in
    let lateralDrift := sin (driftAngle vs) * driftVelocity vs * delta in
    let p := Car.position c in
    let p :=
      Vec.setX p (x p + cos (rotation vs) * lateralDrift * driftFactor vs) in
    let p :=
      Vec.setZ p (z p - sin (rotation vs) * lateralDrift * driftFactor vs) in
    (vs, Car.set_position p c)
  else
    let vs := set_driftFactor (Rmax (driftFactor vs - delta * 2) 0) vs in
    let vs := set_driftAngle (driftAngle vs * 0.9) vs in
    let vs := set_driftVelocity (driftVelocity vs * 0.9) vs in
    let vs := if driftFactor vs <? 0.1 then set_isDrifting false vs else vs in
    (vs, c).

(** "Limit speed". *)
Definition limitSpeed (vs : VehicleState) : VehicleState :=
  set_velocity (clamp (velocity vs) (- maxSpeed vs * 0.3) (maxSpeed vs)) vs.

(** "Apply steering". *)
Definition applySteering (delta : R) (vs : VehicleState) : VehicleState :=
  if Rabs (velocity vs) >? 0.1 then
    let steerMultiplier := if isDrifting vs then driftMultiplier vs else 1 in
    let steerInfluence :=
      steerAngle vs * Rmin (Rabs (velocity vs) / 5) 1 * steerMultiplier in
    set_rotation (rotation vs + steerInfluence * velocity vs * delta) vs
  else vs.

(** "Apply rotation to car", "Move car", "Keep car at correct height",
    "Tilt car in curves" and the drift visuals; [now] is [Date.now()]. *)
Definition moveCar (delta now groundLevel : R) (vs : VehicleState) (c : Car.t)
  : Car.t :=
  let r := Car.rotation c in
  let r := Vec.setY r (rotation vs - PI / 2) in
  let moveDistance := velocity vs * delta in
  let p := Car.position c in
  let p := Vec.setX p (x p + sin (rotation vs) * moveDistance) in
  let p := Vec.setZ p (z p + cos (rotation vs) * moveDistance) in
  let p := Vec.setY p groundLevel in
  let tiltMultiplier := if isDrifting vs then 0.06 else 0.02 in
  let r := Vec.setZ r (- steerAngle vs * velocity vs * tiltMultiplier) in
  let r :=
    if isDrifting vs then
      let driftOscillation := sin (now * 0.01) * 0.02 * driftFactor vs in
      let r := Vec.setY r (y r + driftOscillation) in
      Vec.setX r (- driftFactor vs * 0.05)
    else Vec.setX r 0 in
  Car.mk p r (Car.visible c).

(** The state of the vehicle after the physics of one frame. *)
Definition physicsState (delta : R) (vs : VehicleState) (c : Car.t)
  : VehicleState * Car.t :=
  let vs := steer delta vs in
  let vs := accelerate delta vs in
  let (vs, c) := drift delta (vs, c) in
  let vs := limitSpeed vs in
  let vs := applySteering delta vs in
  (vs, c).

Definition physicsStep (delta now groundLevel : R) (vs : VehicleState)
  (c : Car.t) : VehicleState * Car.t :=
  let (vs, c) := physicsState delta vs c in
  (vs, moveCar delta now groundLevel vs c).

(** ** The collision and track check: the decisions of [checkCollisions] *)

Inductive Verdict : Type := Ongoing | Crashed | Finished | OutOfBounds.

(** "Reduce car collision box size by 25%": the box around its own centre
    with its size times 0.75. *)
Definition reducedCarBox (carBB : Box3) : Box3 :=
  let carCenter := Box.getCenter carBB in
  let carSize := Box.getSize carBB in
  let carSize := Vec.multiplyScalar carSize 0.75 in
  Box.setFromCenterAndSize carCenter carSize.

(** The collision box of an obstacle: the size of the trunk around the
    world position of the group, lifted to height 1. *)
Definition trunkSize : Vector3 := mkVector3 1.2 4.0 1.2.

Definition obstacleBB (obstacle : Vector3) : Box3 :=
  let obstacleCenter := Vec.setY obstacle 1 in
  Box.setFromCenterAndSize obstacleCenter trunkSize.

(** The loop over the obstacles, left at the first box that intersects. *)
Fixpoint hitsObstacle (carBB : Box3) (obs : list Vector3) : bool :=
  match obs with
  | [] => false
  | obstacle :: rest =>
      if Box.intersectsBox carBB (obstacleBB obstacle) then true
      else hitsObstacle carBB rest
  end.

(** The test of one track segment in the loop "Find current track
    segment". *)
Definition inSegment (carX carZ : R) (segment : TrackSegment) : bool :=
  if (carZ <=? start segment) && (carZ >=? end_ segment) then
    let leftLimit := xOffset segment - width segment / 2 in
    let rightLimit := xOffset segment + width segment / 2 in
    (carX >=? leftLimit) && (carX <=? rightLimit)
  else false.

(** The loop over the segments, left ([break]) at the first that holds the
    car. *)
Fixpoint onTrack (carX carZ : R) (segments : list TrackSegment) : bool :=
  match segments with
  | [] => false
  | segment :: rest =>
      if inSegment carX carZ segment then true else onTrack carX carZ rest
  end.

(** The outcome of the checks in the order of the source: obstacles, finish
    line, track. [carBB] is the reduced box of the car. *)
Definition verdict (carBB : Box3) (carPosition : Vector3)
  (obs : list Vector3) (gs : GameState) : Verdict :=
  if hitsObstacle carBB obs then Crashed
  else if z carPosition <? finishLineZ gs then Finished
  else
    let carZ := z carPosition in
    let carX := x carPosition in
    if negb (onTrack carX carZ (trackSegments gs)) && (carZ <? 0)
    then OutOfBounds
    else Ongoing.

(** ** JavaScript truthiness of a string or null *)

Definition truthy (s : option string) : bool :=
  match s with
  | None => false
  | Some s => negb (String.eqb s EmptyString)
  end.

(** [a || b] on a string or null and a string. *)
Definition orElse (s : option string) (d : string) : string :=
  match s with
  | Some s' => if truthy s then s' else d
  | None => d
  end.

Section Game.

Context {host : Host}.

(** ** [gameOver] *)

Definition set_playing_result (won : bool) (gs : GameState) : GameState :=
  mkGameState false (isCountingDown gs) (countdown gs) (raceTime gs)
    (bestTime gs) won (negb won) (freeRoam gs) (startPosition gs)
    (finishLineZ gs) (carGroundLevel gs) (trackSegments gs).

Definition set_bestTime (t : option string) (gs : GameState) : GameState :=
  mkGameState (isPlaying gs) (isCountingDown gs) (countdown gs) (raceTime gs)
    t (hasWon gs) (hasLost gs) (freeRoam gs) (startPosition gs)
    (finishLineZ gs) (carGroundLevel gs) (trackSegments gs).

(** "Stop the car". *)
Definition stopCar (s : VehicleState) : VehicleState :=
  mkVehicleState (rotation s) 0 (steerAngle s) (driftAngle s)
    (driftVelocity s) (isDrifting s) (driftFactor s) (maxSpeed s)
    (acceleration s) (deceleration s) (brakeForce s) (steerSpeed s)
    (maxSteerAngle s) (friction s) (driftFriction s) (driftMultiplier s)
    (cameraDistance s) (cameraHeight s) (cameraLookAhead s) (cameraSmooth s)
    false false (steeringLeft s) (steeringRight s) (handbrake s).

(** The condition of "Check and save best time":
    [!previousBest || gameState.raceTime < parseFloat(previousBest)]. *)
Definition improvesBest (t : R) (previousBest : option string) : bool :=
  negb (truthy previousBest)
  || match previousBest with
     | Some s =>
         match parseFloat s with
         | Some best => t <? best
         | None => false
         end
     | None => false
     end.

Definition set_message (m : list MessageBlock) (u : Ui) : Ui :=
  mkUi m (messageShown u) (timerText u) (timerShown u) (recordTime u).
Definition set_recordTime (r : option string) (u : Ui) : Ui :=
  mkUi (messageHTML u) (messageShown u) (timerText u) (timerShown u) r.
Definition set_timerText (s : string) (u : Ui) : Ui :=
  mkUi (messageHTML u) (messageShown u) s (timerShown u) (recordTime u).
Definition showMessageHideTimer (u : Ui) : Ui :=
  mkUi (messageHTML u) true (timerText u) false (recordTime u).

Definition gameOver (won : bool) (reason : option string) (w : World)
  : World :=
  let w := set_gameState (set_playing_result won (gameState w)) w in
  let w :=
    if won then
      let time := toFixed2 (raceTime (gameState w)) in
      let w := set_ui (set_message [YouWon time] (ui w)) w in
      let previousBest := storedBestTime w in
      if improvesBest (raceTime (gameState w)) previousBest then
        let w := set_gameState (set_bestTime (Some time) (gameState w)) w in
        let w := set_storedBestTime (Some time) w in
        let w :=
          set_ui
            (set_message
               (messageHTML (ui w) ++ [NewRecord (orElse previousBest "N/A")])
               (ui w)) w in
        set_ui (set_recordTime (Some time) (ui w)) w
      else w
    else
      let message := orElse reason "YOU CRASHED!" in
      set_ui (set_message [YouLost message] (ui w)) w in
  let w := set_ui (showMessageHideTimer (ui w)) w in
  set_vehicleState (stopCar (vehicleState w)) w.

(** ** [checkCollisions] *)

Definition createExplosion (position : Vector3) (w : World) : World :=
  set_explosions (explosions w ++ [position]) w.

Definition checkCollisions (w : World) : World :=
  match car w, carBoundingBox w with
  | Some c, Some _ =>
      if negb (isPlaying (gameState w)) then w
      else
        let carBB := reducedCarBox (setFromObject c) in
        let w := set_carBoundingBox (Some carBB) w in
        match verdict carBB (Car.position c) (obstacles w) (gameState w) with
        | Crashed =>
            let w := createExplosion (Car.position c) w in
            let w := set_car (Some (Car.set_visible false c)) w in
            gameOver false None w
        | Finished => gameOver true None w
        | OutOfBounds => gameOver false (Some "OUT OF BOUNDS!"%string) w
        | Ongoing => w
        end
  | _, _ => w
  end.

(** ** [updateCarCamera] *)

Definition idealPosition (vs : VehicleState) (c : Car.t) : Vector3 :=
  let idealOffset :=
    mkVector3 (- sin (rotation vs) * cameraDistance vs)
              (cameraHeight vs)
              (- cos (rotation vs) * cameraDistance vs) in
  let speedOffset := velocity vs * 0.1 in
  let idealOffset :=
    Vec.multiplyScalar idealOffset (1 + Rabs speedOffset * 0.05) in
  Vec.add (Car.position c) idealOffset.

Definition idealLookAt (vs : VehicleState) (c : Car.t) : Vector3 :=
  let lookAheadDistance := cameraLookAhead vs + Rabs (velocity vs) * 0.2 in
  mkVector3 (x (Car.position c) + sin (rotation vs) * lookAheadDistance)
            (y (Car.position c) + 1)
            (z (Car.position c) + cos (rotation vs) * lookAheadDistance).

Definition updateCarCamera (delta : R) (w : World) : World :=
  match car w with
  | None => w
  | Some c =>
      let vs := vehicleState w in
      let cam := camera w in
      if delta >? 0 then
        let cam :=
          Camera.set_position
            (Vec.lerp (Camera.position cam) (idealPosition vs c)
                      (cameraSmooth vs * delta)) cam in
        let currentLookAt := getWorldDirection (Camera.orientation cam) in
        let currentLookAt :=
          Vec.add (Vec.multiplyScalar currentLookAt 10) (Camera.position cam) in
        let currentLookAt :=
          Vec.lerp currentLookAt (idealLookAt vs c) (cameraSmooth vs * delta) in
        set_camera (Camera.lookAt currentLookAt cam) w
      else
        let cam := Camera.set_position (idealPosition vs c) cam in
        set_camera (Camera.lookAt (idealLookAt vs c) cam) w
  end.

(** ** [updateVehiclePhysics] *)

Definition updateVehiclePhysics (delta now : R) (w : World) : World :=
  match car w with
  | None => w
  | Some c =>
      if negb (isPlaying (gameState w)) && negb (freeRoam (gameState w))
      then w
      else
        let (vs, c) :=
          physicsStep delta now (carGroundLevel (gameState w))
                      (vehicleState w) c in
        let w := set_car (Some c) (set_vehicleState vs w) in
        let w :=
          if negb (freeRoam (gameState w)) then checkCollisions w else w in
        updateCarCamera delta w
  end.

(** ** [resetCar] *)

Definition resetVehicle (s : VehicleState) : VehicleState :=
  mkVehicleState PI 0 0 0 0 false 0 (maxSpeed s)
    (acceleration s) (deceleration s) (brakeForce s) (steerSpeed s)
    (maxSteerAngle s) (friction s) (driftFriction s) (driftMultiplier s)
    (cameraDistance s) (cameraHeight s) (cameraLookAhead s) (cameraSmooth s)
    (accelerating s) (braking s) (steeringLeft s) (steeringRight s)
    (handbrake s).

Definition resetCar (w : World) : World :=
  match car w with
  | None => w
  | Some _ =>
      let c :=
        Car.mk (mkVector3 0 (carGroundLevel (gameState w)) 0)
               (mkVector3 0 (- PI / 2) 0) true in
      let w := set_car (Some c) w in
      let w := set_vehicleState (resetVehicle (vehicleState w)) w in
      let w := set_explosions [] w in
      updateCarCamera 0 w
  end.

(** ** One frame of [animate]

    [elapsed] is [clock.getDelta()], [now] is [Date.now()], and [input] is
    what the key and touch handlers have made of the five control flags since
    the frame before. *)

Definition add_raceTime (delta : R) (gs : GameState) : GameState :=
  mkGameState (isPlaying gs) (isCountingDown gs) (countdown gs)
    (raceTime gs + delta)
    (bestTime gs) (hasWon gs) (hasLost gs) (freeRoam gs) (startPosition gs)
    (finishLineZ gs) (carGroundLevel gs) (trackSegments gs).

Definition animate (elapsed now : R) (w : World) : World :=
  let delta := Rmin elapsed 0.1 in
  let w :=
    if isPlaying (gameState w) then
      let w := set_gameState (add_raceTime delta (gameState w)) w in
      set_ui (set_timerText (toFixed2 (raceTime (gameState w))) (ui w)) w
    else w in
  updateVehiclePhysics delta now w.

Record Frame : Type := mkFrame {
  elapsed : R;
  now : R;
  input : ControlInput
}.

Definition frame (f : Frame) (w : World) : World :=
  animate (elapsed f) (now f)
          (set_vehicleState (set_controls (input f) (vehicleState w)) w).

Fixpoint run (frames : list Frame) (w : World) : World :=
  match frames with
  | [] => w
  | f :: rest => run rest (frame f w)
  end.

End Game.

(** ** Notions used in the statements *)

(** The tuning constants and the control flags of a vehicle state. *)
Definition settings (s : VehicleState) :=
  (maxSpeed s, acceleration s, deceleration s, brakeForce s, steerSpeed s,
   maxSteerAngle s, friction s, driftFriction s, driftMultiplier s,
   (cameraDistance s, cameraHeight s, cameraLookAhead s, cameraSmooth s),
   (accelerating s, braking s, steeringLeft s, steeringRight s, handbrake s)).

(** The bounds the specification puts on the vehicle state. *)
Definition inBounds (s : VehicleState) : Prop :=
  - maxSpeed s * 0.3 <= velocity s <= maxSpeed s
  /\ 0 <= driftFactor s <= 1.

(** The drift system stays out of a step that accelerates: the handbrake is
    released, or the speed after the acceleration is not above 3. *)
Definition driftOff (delta : R) (vs : VehicleState) : Prop :=
  handbrake vs = false
  \/ Rabs (velocity vs + acceleration vs * delta) <= 3.

(** The physics runs: the race is on or the player roams freely. *)
Definition raceOn (gs : GameState) : bool := isPlaying gs || freeRoam gs.

(** One call of [updateVehiclePhysics]: nothing happens, or the physics
    runs and the race goes on, or the physics runs and the race ends in this
    frame with the car stopped. *)
Inductive Update (delta now : R) (w w' : World) : Prop :=
| UpdateSkipped :
    w' = w -> (car w = None \/ raceOn (gameState w) = false) ->
    Update delta now w w'
| UpdateMoved (c : Car.t) :
    car w = Some c -> raceOn (gameState w) = true ->
    gameState w' = gameState w ->
    vehicleState w' = fst (physicsState delta (vehicleState w) c) ->
    car w' = Some (snd (physicsStep delta now (carGroundLevel (gameState w))
                                    (vehicleState w) c)) ->
    Update delta now w w'
| UpdateEnded (c : Car.t) :
    car w = Some c -> isPlaying (gameState w) = true ->
    freeRoam (gameState w) = false ->
    raceOn (gameState w') = false ->
    carGroundLevel (gameState w') = carGroundLevel (gameState w) ->
    vehicleState w'
    = stopCar (fst (physicsState delta (vehicleState w) c)) ->
    (exists c', car w' = Some c'
       /\ Car.position c'
          = Car.position (snd (physicsStep delta now
                                 (carGroundLevel (gameState w))
                                 (vehicleState w) c))) ->
    Update delta now w w'.

(** The reduced box of the car meets the collision box of some obstacle. *)
Definition intersectsObstacle (carBB : Box3) (obs : list Vector3) : Prop :=
  exists obstacle,
    In obstacle obs /\ Box.intersectsBox carBB (obstacleBB obstacle) = true.

(** The car is within the range of a segment along the track and within its
    lateral window. *)
Definition withinSegment (p : Vector3) (segment : TrackSegment) : Prop :=
  end_ segment <= z p <= start segment
  /\ xOffset segment - width segment / 2 <= x p
     <= xOffset segment + width segment / 2.

(** ** A host and a world for the examples

    The car model is taken to be a box of 2 by 1.5 by 4 standing on the
    position of the car; the camera looks along the line from the eye to
    the target; of the numbers only the two times of the examples are read
    and printed, 12.50 and 11.98. *)

Definition sampleSetFromObject (c : Car.t) : Box3 :=
  let p := Car.position c in
  mkBox3 (mkVector3 (x p - 1) (y p) (z p - 2))
         (mkVector3 (x p + 1) (y p + 1.5) (z p + 2)).

Definition sampleWorldDirection (o : Camera.Orientation) : Vector3 :=
  match o with
  | Camera.Default => mkVector3 0 0 (-1)
  | Camera.LookAt eye target => Vec.sub target eye
  end.

Definition sampleParseFloat (s : string) : option R :=
  if String.eqb s "12.50" then Some 12.5 else None.

Definition sampleHost : Host := {|
  setFromObject := sampleSetFromObject;
  getWorldDirection := sampleWorldDirection;
  parseFloat := sampleParseFloat;
  toFixed2 := fun _ => "11.98"%string;
  parseFloat_empty := eq_refl
|}.

Definition sampleCar : Car.t :=
  Car.mk (mkVector3 0 0.1 0) (mkVector3 0 (- PI / 2) 0) true.

Definition sampleGameState : GameState :=
  mkGameState true false 0 0 None false false false (mkVector3 0 0 0)
    (-300) 0.1 raceTrackSegments.

Definition sampleUi : Ui := mkUi [] false "" true None.

(** The race has just started: the car on the start line, facing the
    track. *)
Definition sampleWorld : World := {|
  car := Some sampleCar;
  carBoundingBox := Some (sampleSetFromObject sampleCar);
  obstacles := obstaclePositions;
  camera := Camera.mk (mkVector3 0 4.1 8) Camera.Default;
  gameState := sampleGameState;
  vehicleState := set_rotation PI initialVehicleState;
  storedBestTime := None;
  ui := sampleUi;
  explosions := []
|}.

(** The car of the examples standing at a place on the ground. *)
Definition carAt (px pz : R) : Car.t :=
  Car.mk (mkVector3 px 0.1 pz) (mkVector3 0 (- PI / 2) 0) true.

(** Behind the finish line and behind the last track segment. *)
Definition pastTheTrack : World := set_car (Some (carAt 0 (-330))) sampleWorld.

(** Beside the first straight, past the start line. *)
Definition besideTheTrack : World :=
  set_car (Some (carAt 30 (-10))) sampleWorld.

(** A single tree behind the finish line, and the car in it. *)
Definition treeBehindFinish : World :=
  set_obstacles [mkVector3 0 0 (-310)]
    (set_car (Some (carAt 0 (-310))) sampleWorld).

(** Free roam at velocity 20 with the accelerator held, the handbrake as
    given. *)
Definition roaming (handbrakeHeld : bool) : World :=
  set_gameState
    (mkGameState false false 0 0 None true false true (mkVector3 0 0 0)
       (-300) 0.1 raceTrackSegments)
    (set_vehicleState
       (set_controls (mkControlInput true false false false handbrakeHeld)
          (set_velocity 20 (vehicleState sampleWorld)))
       sampleWorld).

(** The race won after 11.98 seconds, with a best time of 12.50 in the
    store. *)
Definition wonIn1198 : World :=
  set_storedBestTime (Some "12.50"%string)
    (set_gameState
       (mkGameState true false 0 11.98 (Some "12.50"%string) false false
          false (mkVector3 0 0 0) (-300) 0.1 raceTrackSegments)
       sampleWorld).

(** Both steering keys held. *)
Definition bothSidesHeld : VehicleState :=
  set_controls (mkControlInput false false true true false)
    initialVehicleState.

(** * The rest of the game

    The input handlers, the countdown and the modes of the race, the
    explosion particles, and the physics of the drift variant. *)

(** ** The input handlers: keyboard and touch *)

Inductive Control : Type :=
| Accelerate | Brake | SteerLeft | SteerRight | Handbrake.

(** The assignment of one of the five control flags. *)
Definition set_control (c : Control) (b : bool) (s : VehicleState)
  : VehicleState :=
  set_controls
    (mkControlInput
       (match c with Accelerate => b | _ => accelerating s end)
       (match c with Brake => b | _ => braking s end)
       (match c with SteerLeft => b | _ => steeringLeft s end)
       (match c with SteerRight => b | _ => steeringRight s end)
       (match c with Handbrake => b | _ => handbrake s end))
    s.

(** The flag a control stands for. *)
Definition control_flag (c : Control) (s : VehicleState) : bool :=
  match c with
  | Accelerate => accelerating s
  | Brake => braking s
  | SteerLeft => steeringLeft s
  | SteerRight => steeringRight s
  | Handbrake => handbrake s
  end.

(** [String.prototype.toLowerCase] on the letters A to Z; other characters
    are left as they are. *)
Definition toLowerAscii (c : ascii) : ascii :=
  let n := nat_of_ascii c in
  if (65 <=? n)%nat && (n <=? 90)%nat then ascii_of_nat (n + 32) else c.

Fixpoint toLowerCase (s : string) : string :=
  match s with
  | EmptyString => EmptyString
  | String c rest => String (toLowerAscii c) (toLowerCase rest)
  end.

(** The cases of [switch(event.key.toLowerCase())] in the key handlers. *)
Definition keyControl (k : string) : option Control :=
  if ((k =? "w") || (k =? "arrowup"))%string then Some Accelerate
  else if ((k =? "s") || (k =? "arrowdown"))%string then Some Brake
  else if ((k =? "a") || (k =? "arrowleft"))%string then Some SteerLeft
  else if ((k =? "d") || (k =? "arrowright"))%string then Some SteerRight
  else if (k =? " ")%string then Some Handbrake
  else None.

(** The cases of [switch(action)] in the touch handlers. *)
Definition actionControl (action : string) : option Control :=
  if ((action =? "up") || (action =? "accelerate"))%string
  then Some Accelerate
  else if ((action =? "down") || (action =? "brake"))%string then Some Brake
  else if (action =? "left")%string then Some SteerLeft
  else if (action =? "right")%string then Some SteerRight
  else if (action =? "drift")%string then Some Handbrake
  else None.


Definition handleTouchEnd (action : string) (w : World) : World :=
  match actionControl action with
  | Some c => set_vehicleState (set_control c false (vehicleState w)) w
  | None => w
  end.

(** ** The page around the world: countdown, timers, keys *)

(** [countdownElement.textContent]. *)
Inductive CountdownText : Type :=
| NoText
| Number (n : nat)
| Go.

(** The callbacks waiting in [setInterval] and [setTimeout]: the tick of
    the countdown and the start of the race after "GO!". *)
Inductive Timer : Type := CountInterval | RaceTimeout.

Record Page : Type := mkPage {
  world : World;
  countdownText : CountdownText;
  countdownShown : bool;
  (* mobileControls.container and whether it is displayed; None on a
     device that is not mobile *)
  mobileControls : option bool;
  (* the number of elements with id 'free-roam-message' in the body *)
  freeRoamMessages : nat;
  (* the object keys, latest assignment first *)
  keys : list (string * bool);
  timers : list Timer
}.

Definition set_world (w : World) (p : Page) : Page :=
  mkPage w (countdownText p) (countdownShown p) (mobileControls p)
    (freeRoamMessages p) (keys p) (timers p).
Definition set_countdownText (t : CountdownText) (p : Page) : Page :=
  mkPage (world p) t (countdownShown p) (mobileControls p)
    (freeRoamMessages p) (keys p) (timers p).
Definition set_countdownShown (b : bool) (p : Page) : Page :=
  mkPage (world p) (countdownText p) b (mobileControls p)
    (freeRoamMessages p) (keys p) (timers p).
(** [if (mobileControls.container) container.style.display = ...]. *)
Definition show_mobileControls (b : bool) (p : Page) : Page :=
  mkPage (world p) (countdownText p) (countdownShown p)
    (match mobileControls p with Some _ => Some b | None => None end)
    (freeRoamMessages p) (keys p) (timers p).
Definition set_freeRoamMessages (n : nat) (p : Page) : Page :=
  mkPage (world p) (countdownText p) (countdownShown p) (mobileControls p)
    n (keys p) (timers p).
Definition set_key (key : string) (b : bool) (p : Page) : Page :=
  mkPage (world p) (countdownText p) (countdownShown p) (mobileControls p)
    (freeRoamMessages p) ((key, b) :: keys p) (timers p).
Definition set_timers (l : list Timer) (p : Page) : Page :=
  mkPage (world p) (countdownText p) (countdownShown p) (mobileControls p)
    (freeRoamMessages p) (keys p) l.

Definition timer_eqb (a b : Timer) : bool :=
  match a, b with
  | CountInterval, CountInterval => true
  | RaceTimeout, RaceTimeout => true
  | _, _ => false
  end.

(** [clearInterval], and a timeout that has fired: the first such timer
    leaves the list. *)
Fixpoint clearTimer (t : Timer) (l : list Timer) : list Timer :=
  match l with
  | [] => []
  | t' :: rest => if timer_eqb t t' then rest else t' :: clearTimer t rest
  end.

Definition set_countingDown (counting : bool) (n : nat) (gs : GameState)
  : GameState :=
  mkGameState (isPlaying gs) counting n (raceTime gs)
    (bestTime gs) (hasWon gs) (hasLost gs) (freeRoam gs) (startPosition gs)
    (finishLineZ gs) (carGroundLevel gs) (trackSegments gs).

Definition set_countdown (n : nat) (gs : GameState) : GameState :=
  mkGameState (isPlaying gs) (isCountingDown gs) n (raceTime gs)
    (bestTime gs) (hasWon gs) (hasLost gs) (freeRoam gs) (startPosition gs)
    (finishLineZ gs) (carGroundLevel gs) (trackSegments gs).

(** The assignments of [startRace] to [gameState]. *)
Definition racing (gs : GameState) : GameState :=
  mkGameState true false (countdown gs) 0
    (bestTime gs) false false false (startPosition gs)
    (finishLineZ gs) (carGroundLevel gs) (trackSegments gs).

Definition set_freeRoam (b : bool) (gs : GameState) : GameState :=
  mkGameState (isPlaying gs) (isCountingDown gs) (countdown gs) (raceTime gs)
    (bestTime gs) (hasWon gs) (hasLost gs) b (startPosition gs)
    (finishLineZ gs) (carGroundLevel gs) (trackSegments gs).

(** The assignments of [enableFreeRoam] to [gameState]. *)
Definition roamingFreely (gs : GameState) : GameState :=
  mkGameState false (isCountingDown gs) (countdown gs) (raceTime gs)
    (bestTime gs) (hasWon gs) (hasLost gs) true (startPosition gs)
    (finishLineZ gs) (carGroundLevel gs) (trackSegments gs).

Definition set_messageShown (b : bool) (u : Ui) : Ui :=
  mkUi (messageHTML u) b (timerText u) (timerShown u) (recordTime u).
Definition set_timerShown (b : bool) (u : Ui) : Ui :=
  mkUi (messageHTML u) (messageShown u) (timerText u) b (recordTime u).

Section Race.

Context {host : Host}.

(** [startRace]. *)
Definition startRace (p : Page) : Page :=
  let w := world p in
  let w := set_gameState (racing (gameState w)) w in
  let w := set_ui (set_timerShown true (ui w)) w in
  let w := set_ui (set_messageShown false (ui w)) w in
  show_mobileControls true (set_world w p).

(** [startCountdown], up to the call of [setInterval]. *)
Definition startCountdown (p : Page) : Page :=
  let p := set_world (resetCar (world p)) p in
  let p := show_mobileControls false p in
  let w := world p in
  let p := set_world (set_gameState (set_countingDown true 3 (gameState w)) w)
                     p in
  let p := set_countdownShown true p in
  set_timers (timers p ++ [CountInterval]) p.

(** The callback of the interval of [startCountdown], once a second. *)
Definition countInterval (p : Page) : Page :=
  let w := world p in
  if (0 <? countdown (gameState w))%nat then
    let p := set_countdownText (Number (countdown (gameState w))) p in
    set_world
      (set_gameState
         (set_countdown (countdown (gameState w) - 1) (gameState w)) w) p
  else
    let p := set_countdownText Go p in
    let p := set_timers (timers p ++ [RaceTimeout]) p in
    set_timers (clearTimer CountInterval (timers p)) p.

(** The callback of the timeout set at "GO!", half a second later. *)
Definition raceTimeout (p : Page) : Page :=
  let p := set_timers (clearTimer RaceTimeout (timers p)) p in
  let p := set_countdownShown false p in
  startRace p.

(** [enableFreeRoam]. *)
Definition enableFreeRoam (p : Page) : Page :=
  let w := world p in
  let w := set_gameState (roamingFreely (gameState w)) w in
  let w := set_ui (set_messageShown false (ui w)) w in
  let w := set_ui (set_timerShown false (ui w)) w in
  let p := show_mobileControls true (set_world w p) in
  let p := set_freeRoamMessages (S (freeRoamMessages p)) p in
  set_world (set_vehicleState (stopCar (vehicleState (world p))) (world p)) p.

(** The handlers that [gameOver] puts on the two buttons of the message. *)
Definition restartClicked (p : Page) : Page :=
  let w := world p in
  startCountdown (set_world (set_ui (set_messageShown false (ui w)) w) p).

Definition exploreClicked (p : Page) : Page := enableFreeRoam p.

(** The condition of "Restart game" in [onKeyDown]. *)
Definition restarts (key : string) (p : Page) : bool :=
  (toLowerCase key =? "r")%string
  && negb (isPlaying (gameState (world p)))
  && negb (isCountingDown (gameState (world p))).

(** [onKeyDown], for [event.key = key]. *)
Definition onKeyDown (key : string) (p : Page) : Page :=
  let p := set_key key true p in
  if restarts key p then
    let p :=
      if (0 <? freeRoamMessages p)%nat
      then set_freeRoamMessages (freeRoamMessages p - 1) p
      else p in
    let w := world p in
    let w := set_gameState (set_freeRoam false (gameState w)) w in
    let w := set_ui (set_messageShown false (ui w)) w in
    startCountdown (set_world w p)
  else
    let w := world p in
    if negb (isPlaying (gameState w)) && negb (freeRoam (gameState w)) then p
    else
      match keyControl (toLowerCase key) with
      | Some c =>
          set_world (set_vehicleState (set_control c true (vehicleState w)) w)
                    p
      | None => p
      end.


(** [onKeyUp], for [event.key = key]. *)
Definition onKeyUp (key : string) (p : Page) : Page :=
  let p := set_key key false p in
  let w := world p in
  match keyControl (toLowerCase key) with
  | Some c =>
      set_world (set_vehicleState (set_control c false (vehicleState w)) w) p
  | None => p
  end.

(** The countdown from its start to the start of the race: the interval
    fires [ticks] times, then the timeout. *)
Fixpoint countIntervals (ticks : nat) (p : Page) : Page :=
  match ticks with
  | O => p
  | S n => countIntervals n (countInterval p)
  end.

(** The texts the countdown element shows, tick by tick. *)
Fixpoint countdownTexts (ticks : nat) (p : Page) : list CountdownText :=
  match ticks with
  | O => []
  | S n =>
      countdownText (countInterval p) :: countdownTexts n (countInterval p)
  end.

End Race.

(** ** The explosion particles *)

Module Particle.
Record t : Type := mk {
  position : Vector3;
  velocity : Vector3;
  life : R;
  decay : R;
  (* the size of the cube and the two colours picked for its material *)
  size : R;
  color : Z;
  emissive : Z;
  scale : Vector3;
  opacity : R;
  transparent : bool
}.
End Particle.

(** [colors[Math.floor(r * colors.length)]] for a draw [r] of
    [Math.random()], in [[0, 1)]. *)
Definition pickColor (r : R) : Z :=
  if r * 5 <? 1 then 16711680%Z       (* 0xff0000 *)
  else if r * 5 <? 2 then 16733440%Z  (* 0xff5500 *)
  else if r * 5 <? 3 then 16755200%Z  (* 0xffaa00 *)
  else if r * 5 <? 4 then 16776960%Z  (* 0xffff00 *)
  else 16746496%Z.                    (* 0xff8800 *)

(** The ten draws of [Math.random()] behind one particle, in the order of
    the calls. *)
Record Draws : Type := mkDraws {
  r_size : R;
  r_color : R;
  r_emissive : R;
  r_px : R; r_py : R; r_pz : R;
  r_vx : R; r_vy : R; r_vz : R;
  r_decay : R
}.

Definition unitDraw (r : R) : Prop := 0 <= r < 1.

Definition unitDraws (d : Draws) : Prop :=
  unitDraw (r_size d) /\ unitDraw (r_color d) /\ unitDraw (r_emissive d)
  /\ unitDraw (r_px d) /\ unitDraw (r_py d) /\ unitDraw (r_pz d)
  /\ unitDraw (r_vx d) /\ unitDraw (r_vy d) /\ unitDraw (r_vz d)
  /\ unitDraw (r_decay d).

(** One turn of the loop of [createExplosion]. *)
Definition newParticle (position : Vector3) (d : Draws) : Particle.t :=
  Particle.mk
    (mkVector3 (x position + (r_px d - 0.5) * 2)
               (y position + r_py d * 2)
               (z position + (r_pz d - 0.5) * 2))
    (mkVector3 ((r_vx d - 0.5) * 15) (r_vy d * 15 + 5) ((r_vz d - 0.5) * 15))
    1.0
    (r_decay d * 0.02 + 0.01)
    (r_size d * 0.5 + 0.2)
    (pickColor (r_color d))
    (pickColor (r_emissive d))
    (mkVector3 1 1 1)
    1
    false.

(** The particles that [createExplosion] pushes, one for each of its
    [particleCount = 30] turns; [draws] holds the draws of each turn. *)
Definition particleCount : nat := 30.

Definition explosionParticlesAt (position : Vector3) (draws : list Draws)
  : list Particle.t :=
  map (newParticle position) (firstn particleCount draws).

(** The body of the loop of [updateExplosionParticles] before the removal. *)
Definition moveParticle (delta : R) (p : Particle.t) : Particle.t :=
  let position :=
    Vec.add (Particle.position p)
            (Vec.multiplyScalar (Particle.velocity p) delta) in
  let velocity := Particle.velocity p in
  let velocity := Vec.setY velocity (y velocity - 20 * delta) in
  let velocity := Vec.multiplyScalar velocity 0.98 in
  let life := Particle.life p - Particle.decay p in
  Particle.mk position velocity life (Particle.decay p) (Particle.size p)
    (Particle.color p) (Particle.emissive p)
    (mkVector3 life life life) life true.

(** [updateExplosionParticles]: the loop runs from the last particle to the
    first and splices the dead ones out. *)
Fixpoint updateExplosionParticles (delta : R) (ps : list Particle.t)
  : list Particle.t :=
  match ps with
  | [] => []
  | p :: rest =>
      let rest := updateExplosionParticles delta rest in
      let p := moveParticle delta p in
      if Particle.life p <=? 0 then rest else p :: rest
  end.

(** The particles after the frames with the given values of [delta]. *)
Fixpoint updateParticles (deltas : list R) (ps : list Particle.t)
  : list Particle.t :=
  match deltas with
  | [] => ps
  | delta :: rest => updateParticles rest (updateExplosionParticles delta ps)
  end.

(** ** The drift variant ("RACING GAME V4.0 - DRIFT MODE")

    Its [updateVehiclePhysics] has the steering, acceleration, drift, speed
    limit and steering blocks of the race variant word for word; it neither
    sets the height of the car nor checks collisions, and it runs whenever
    the car is loaded. Of the world it uses the car, the camera and the
    vehicle state. *)

Module DriftMode.

(** The object literal [vehicleState] of the drift variant. *)
Definition initialVehicleState : VehicleState := {|
  rotation := 0; velocity := 0; steerAngle := 0;
  driftAngle := 0; driftVelocity := 0; isDrifting := false; driftFactor := 0;
  maxSpeed := 15; acceleration := 8; deceleration := 10; brakeForce := 15;
  steerSpeed := 1.8; maxSteerAngle := 0.3; friction := 5;
  driftFriction := 0.95; driftMultiplier := 2.5;
  cameraDistance := 8; cameraHeight := 4; cameraLookAhead := 2;
  cameraSmooth := 8;
  accelerating := false; braking := false; steeringLeft := false;
  steeringRight := false; handbrake := false
|}.

(** "Apply rotation to car", "Move car", "Tilt car in curves" and the drift
    visuals. *)
Definition moveCar (delta now : R) (vs : VehicleState) (c : Car.t) : Car.t :=
  let r := Car.rotation c in
  let r := Vec.setY r (rotation vs - PI / 2) in
  let moveDistance := velocity vs * delta in
  let p := Car.position c in
  let p := Vec.setX p (x p + sin (rotation vs) * moveDistance) in
  let p := Vec.setZ p (z p + cos (rotation vs) * moveDistance) in
  let tiltMultiplier := if isDrifting vs then 0.06 else 0.02 in
  let r := Vec.setZ r (- steerAngle vs * velocity vs * tiltMultiplier) in
  let r :=
    if isDrifting vs then
      let driftOscillation := sin (now * 0.01) * 0.02 * driftFactor vs in
      let r := Vec.setY r (y r + driftOscillation) in
      Vec.setX r (- driftFactor vs * 0.05)
    else Vec.setX r 0 in
  Car.mk p r (Car.visible c).

Definition updateVehiclePhysics {host : Host} (delta now : R) (w : World)
  : World :=
  match car w with
  | None => w
  | Some c =>
      let (vs, c) := physicsState delta (vehicleState w) c in
      let c := moveCar delta now vs c in
      updateCarCamera delta (set_car (Some c) (set_vehicleState vs w))
  end.

(** One frame of [animate]. *)
Definition animate {host : Host} (elapsed now : R) (w : World) : World :=
  let delta := Rmin elapsed 0.1 in
  updateVehiclePhysics delta now w.

End DriftMode.

(** ** Examples for the rest of the game *)

Definition samplePage : Page :=
  mkPage sampleWorld NoText false None 0 [] [].

(** The race lost, on a phone, with the left button still held. *)
Definition lostPage : Page :=
  mkPage
    (set_gameState
       (mkGameState false false 0 7.5 None false true false (mkVector3 0 0 0)
          (-300) 0.1 raceTrackSegments)
       (set_vehicleState
          (set_control SteerLeft true (vehicleState sampleWorld))
          sampleWorld))
    Go false (Some true) 0 [] [].

Definition sampleDraws : Draws :=
  mkDraws 0.5 0.1 0.9 0.5 0.5 0.5 0.5 0.5 0.5 0.5.

(** ** Notions used in the further statements *)


(** Box [a] lies within box [b]. *)
Definition boxWithin (a b : Box3) : Prop :=
  (x (min b) <= x (min a) /\ x (max a) <= x (max b))
  /\ (y (min b) <= y (min a) /\ y (max a) <= y (max b))
  /\ (z (min b) <= z (min a) /\ z (max a) <= z (max b)).

(** The page of a countdown with [n] left to count that shows [shown]. *)
Definition ticked (n : nat) (shown : nat) (p0 : Page) : Page :=
  set_world
    (set_gameState (set_countdown n (gameState (world p0))) (world p0))
    (set_countdownText (Number shown) p0).

(** ** More examples *)

(** Rolling at velocity 10 with no key held, the race on. *)
Definition coastingWorld : World :=
  set_vehicleState (set_velocity 10 (vehicleState sampleWorld)) sampleWorld.

(** Free roam at rest with the brake held. *)
Definition reversingWorld : World :=
  set_gameState
    (mkGameState false false 0 0 None true false true (mkVector3 0 0 0)
       (-300) 0.1 raceTrackSegments)
    (set_vehicleState
       (set_control Brake true (vehicleState sampleWorld)) sampleWorld).

(** A box with its corners the wrong way round: empty. *)
Definition emptyBox : Box3 := mkBox3 (mkVector3 1 1 1) (mkVector3 0 0 0).

(** A frame that took half a second, with the accelerator held. *)
Definition longFrame : Frame :=
  mkFrame 0.5 0 (mkControlInput true false false false false).

(** * Properties *)

(** ** Comparisons *)

Lemma Rltb_true (a b : R) : (a <? b) = true <-> a < b.
Proof. unfold Rltb; destruct (Rlt_dec a b); split; intros; try easy. Qed.

Lemma Rltb_false (a b : R) : (a <? b) = false <-> b <= a.
Proof.
  unfold Rltb; destruct (Rlt_dec a b); split; intros; try easy; lra.
Qed.

Lemma Rleb_true (a b : R) : (a <=? b) = true <-> a <= b.
Proof. unfold Rleb; destruct (Rle_dec a b); split; intros; try easy. Qed.

Lemma Rleb_false (a b : R) : (a <=? b) = false <-> b < a.
Proof.
  unfold Rleb; destruct (Rle_dec a b); split; intros; try easy; lra.
Qed.

(** Case analysis on every comparison of the goal, keeping the facts. *)
Ltac cmp_cases :=
  repeat match goal with
  | |- context [Rltb ?a ?b] =>
      let H := fresh "Hcmp" in
      destruct (Rltb a b) eqn:H;
      [apply Rltb_true in H | apply Rltb_false in H]
  | |- context [Rleb ?a ?b] =>
      let H := fresh "Hcmp" in
      destruct (Rleb a b) eqn:H;
      [apply Rleb_true in H | apply Rleb_false in H]
  end.

(** Rewrites the comparisons that the context decides. *)
Ltac cmp_decide :=
  repeat match goal with
  | |- context [Rltb ?a ?b] =>
      first
        [ replace (Rltb a b) with true by (symmetry; apply Rltb_true; lra)
        | replace (Rltb a b) with false by (symmetry; apply Rltb_false; lra) ]
  | |- context [Rleb ?a ?b] =>
      first
        [ replace (Rleb a b) with true by (symmetry; apply Rleb_true; lra)
        | replace (Rleb a b) with false by (symmetry; apply Rleb_false; lra) ]
  end.

(** ** The arithmetic of three.js *)

Lemma clamp_between (v lo hi : R) : lo <= hi -> lo <= clamp v lo hi <= hi.
Proof.
  intros Hle; unfold clamp, Rmax, Rmin.
  destruct (Rle_dec hi v); destruct (Rle_dec lo _); lra.
Qed.

Lemma clamp_inside (v lo hi : R) : lo <= v <= hi -> clamp v lo hi = v.
Proof.
  intros [Hlo Hhi]; unfold clamp, Rmax, Rmin.
  destruct (Rle_dec hi v); destruct (Rle_dec lo _); lra.
Qed.

Lemma clamp_above (v lo hi : R) : lo <= hi -> hi <= v -> clamp v lo hi = hi.
Proof.
  intros Hle Hv; unfold clamp, Rmax, Rmin.
  destruct (Rle_dec hi v); destruct (Rle_dec lo _); lra.
Qed.

Lemma clamp_below (v lo hi : R) : lo <= hi -> v <= lo -> clamp v lo hi = lo.
Proof.
  intros Hle Hv; unfold clamp, Rmax, Rmin.
  destruct (Rle_dec hi v); destruct (Rle_dec lo _); lra.
Qed.

(** ** The physics leaves the settings and the controls alone *)

Lemma steer_settings delta vs : settings (steer delta vs) = settings vs.
Proof. reflexivity. Qed.

Lemma accelerate_settings delta vs :
  settings (accelerate delta vs) = settings vs.
Proof.
  unfold accelerate.
  destruct (accelerating vs); [reflexivity|].
  destruct (braking vs); [reflexivity|].
  cbn; cmp_cases; reflexivity.
Qed.

Lemma drift_settings delta vs c :
  settings (fst (drift delta (vs, c))) = settings vs.
Proof.
  unfold drift.
  destruct (driftActive vs); cbn.
  - destruct (steeringLeft vs || steeringRight vs); reflexivity.
  - cmp_cases; reflexivity.
Qed.

Lemma limitSpeed_settings vs : settings (limitSpeed vs) = settings vs.
Proof. reflexivity. Qed.

Lemma applySteering_settings delta vs :
  settings (applySteering delta vs) = settings vs.
Proof. unfold applySteering; cmp_cases; reflexivity. Qed.

(** The drift block as a pair of its two results. *)
Lemma drift_pair delta st :
  drift delta st = (fst (drift delta st), snd (drift delta st)).
Proof. destruct (drift delta st); reflexivity. Qed.

Lemma physicsState_fst delta vs c :
  fst (physicsState delta vs c)
  = applySteering delta
      (limitSpeed (fst (drift delta (accelerate delta (steer delta vs), c)))).
Proof.
  unfold physicsState.
  destruct (drift delta (accelerate delta (steer delta vs), c)); reflexivity.
Qed.

Lemma physicsState_settings delta vs c :
  settings (fst (physicsState delta vs c)) = settings vs.
Proof.
  rewrite physicsState_fst, applySteering_settings, limitSpeed_settings,
    drift_settings, accelerate_settings, steer_settings.
  reflexivity.
Qed.

Lemma physicsStep_fst delta now ground vs c :
  fst (physicsStep delta now ground vs c) = fst (physicsState delta vs c).
Proof.
  unfold physicsStep; destruct (physicsState delta vs c); reflexivity.
Qed.

Lemma settings_maxSpeed s s' :
  settings s = settings s' -> maxSpeed s = maxSpeed s'.
Proof. unfold settings; intros H; inversion H; reflexivity. Qed.

Lemma settings_acceleration s s' :
  settings s = settings s' -> acceleration s = acceleration s'.
Proof. unfold settings; intros H; inversion H; reflexivity. Qed.

Lemma settings_accelerating s s' :
  settings s = settings s' -> accelerating s = accelerating s'.
Proof. unfold settings; intros H; inversion H; reflexivity. Qed.

Lemma settings_handbrake s s' :
  settings s = settings s' -> handbrake s = handbrake s'.
Proof. unfold settings; intros H; inversion H; reflexivity. Qed.

(** ** Velocity and drift factor after the physics *)

Lemma applySteering_velocity delta vs :
  velocity (applySteering delta vs) = velocity vs.
Proof. unfold applySteering; cmp_cases; reflexivity. Qed.

Lemma applySteering_driftFactor delta vs :
  driftFactor (applySteering delta vs) = driftFactor vs.
Proof. unfold applySteering; cmp_cases; reflexivity. Qed.

Lemma physicsState_velocity delta vs c :
  velocity (fst (physicsState delta vs c))
  = clamp (velocity (fst (drift delta (accelerate delta (steer delta vs), c))))
          (- maxSpeed vs * 0.3) (maxSpeed vs).
Proof.
  rewrite physicsState_fst, applySteering_velocity.
  unfold limitSpeed; cbn [velocity set_velocity].
  rewrite (settings_maxSpeed _ vs); [reflexivity|].
  rewrite drift_settings, accelerate_settings, steer_settings; reflexivity.
Qed.

Lemma accelerate_driftFactor delta vs :
  driftFactor (accelerate delta vs) = driftFactor vs.
Proof.
  unfold accelerate.
  destruct (accelerating vs); [reflexivity|].
  destruct (braking vs); [reflexivity|].
  cbn; cmp_cases; reflexivity.
Qed.

Lemma drift_driftFactor_bounds delta vs c :
  0 <= delta -> 0 <= driftFactor vs <= 1 ->
  0 <= driftFactor (fst (drift delta (vs, c))) <= 1.
Proof.
  intros Hd Hf; unfold drift.
  destruct (driftActive vs); cbn.
  - destruct (steeringLeft vs || steeringRight vs); cbn;
      unfold Rmin; destruct (Rle_dec _ _); lra.
  - cmp_cases; cbn; unfold Rmax; destruct (Rle_dec _ _); lra.
Qed.

Lemma physicsState_driftFactor_bounds delta vs c :
  0 <= delta -> 0 <= driftFactor vs <= 1 ->
  0 <= driftFactor (fst (physicsState delta vs c)) <= 1.
Proof.
  intros Hd Hf.
  rewrite physicsState_fst, applySteering_driftFactor.
  unfold limitSpeed; cbn [driftFactor set_velocity].
  apply drift_driftFactor_bounds; [exact Hd|].
  rewrite accelerate_driftFactor; exact Hf.
Qed.

Lemma physicsState_inBounds delta vs c :
  0 <= delta -> inBounds vs -> inBounds (fst (physicsState delta vs c)).
Proof.
  intros Hd [Hv Hf]; split.
  - rewrite physicsState_velocity.
    rewrite (settings_maxSpeed _ vs (physicsState_settings delta vs c)).
    apply clamp_between; lra.
  - apply physicsState_driftFactor_bounds; assumption.
Qed.

(** ** What [gameOver], [checkCollisions] and the camera leave alone *)

Section WorldLemmas.

Context {host : Host}.

Lemma gameOver_vehicleState won reason w :
  vehicleState (gameOver won reason w) = stopCar (vehicleState w).
Proof.
  unfold gameOver; destruct won; cbn; [|reflexivity].
  destruct (improvesBest _ _); reflexivity.
Qed.

Lemma gameOver_car won reason w : car (gameOver won reason w) = car w.
Proof.
  unfold gameOver; destruct won; cbn; [|reflexivity].
  destruct (improvesBest _ _); reflexivity.
Qed.

Lemma gameOver_camera won reason w : camera (gameOver won reason w) = camera w.
Proof.
  unfold gameOver; destruct won; cbn; [|reflexivity].
  destruct (improvesBest _ _); reflexivity.
Qed.

Lemma gameOver_flags won reason w :
  let gs := gameState (gameOver won reason w) in
  isPlaying gs = false /\ hasWon gs = won /\ hasLost gs = negb won
  /\ freeRoam gs = freeRoam (gameState w)
  /\ carGroundLevel gs = carGroundLevel (gameState w).
Proof.
  unfold gameOver; destruct won; cbn; [|repeat split].
  destruct (improvesBest _ _); repeat split.
Qed.

Lemma stopCar_settings_maxSpeed s : maxSpeed (stopCar s) = maxSpeed s.
Proof. reflexivity. Qed.

Lemma stopCar_inBounds s : inBounds s -> inBounds (stopCar s).
Proof. unfold inBounds; cbn; intros [Hv Hf]; split; [lra | exact Hf]. Qed.

Lemma updateCarCamera_vehicleState delta w :
  vehicleState (updateCarCamera delta w) = vehicleState w.
Proof.
  unfold updateCarCamera; destruct (car w); [|reflexivity].
  destruct (delta >? 0); reflexivity.
Qed.

Lemma updateCarCamera_gameState delta w :
  gameState (updateCarCamera delta w) = gameState w.
Proof.
  unfold updateCarCamera; destruct (car w); [|reflexivity].
  destruct (delta >? 0); reflexivity.
Qed.

Lemma updateCarCamera_car delta w : car (updateCarCamera delta w) = car w.
Proof.
  unfold updateCarCamera; destruct (car w) eqn:Hc; [|exact Hc].
  destruct (delta >? 0); cbn; exact Hc.
Qed.

(** [checkCollisions] either leaves the game state and the vehicle as they
    are, or ends the race through [gameOver]. *)
Lemma checkCollisions_cases w :
  (gameState (checkCollisions w) = gameState w
   /\ vehicleState (checkCollisions w) = vehicleState w
   /\ car (checkCollisions w) = car w)
  \/ (isPlaying (gameState (checkCollisions w)) = false
      /\ freeRoam (gameState (checkCollisions w)) = freeRoam (gameState w)
      /\ carGroundLevel (gameState (checkCollisions w))
         = carGroundLevel (gameState w)
      /\ vehicleState (checkCollisions w) = stopCar (vehicleState w)
      /\ exists c, car w = Some c
           /\ (car (checkCollisions w) = Some c
               \/ car (checkCollisions w) = Some (Car.set_visible false c))).
Proof.
  unfold checkCollisions.
  destruct (car w) as [c|] eqn:Hc; [|left; auto].
  destruct (carBoundingBox w); [|left; auto].
  destruct (isPlaying (gameState w)); cbn [negb]; [|left; auto].
  destruct (verdict _ _ _ _).
  - left; cbn; auto.
  - right.
    match goal with |- context [gameOver ?a ?b ?w'] =>
      pose proof (gameOver_flags a b w') as (Hp & _ & _ & Hf & Hg);
      rewrite (gameOver_vehicleState a b w'), (gameOver_car a b w') end.
    cbn in *. repeat split; try assumption. exists c; auto.
  - right.
    match goal with |- context [gameOver ?a ?b ?w'] =>
      pose proof (gameOver_flags a b w') as (Hp & _ & _ & Hf & Hg);
      rewrite (gameOver_vehicleState a b w'), (gameOver_car a b w') end.
    cbn in *. repeat split; try assumption. exists c; auto.
  - right.
    match goal with |- context [gameOver ?a ?b ?w'] =>
      pose proof (gameOver_flags a b w') as (Hp & _ & _ & Hf & Hg);
      rewrite (gameOver_vehicleState a b w'), (gameOver_car a b w') end.
    cbn in *. repeat split; try assumption. exists c; auto.
Qed.

Lemma updateVehiclePhysics_cases delta now w :
  Update delta now w (updateVehiclePhysics delta now w).
Proof.
  unfold updateVehiclePhysics.
  destruct (car w) as [c|] eqn:Hc; [|apply UpdateSkipped; auto].
  destruct (isPlaying (gameState w)) eqn:Hp;
    destruct (freeRoam (gameState w)) eqn:Hf; cbn [negb andb].
  - (* playing and free roam: no collision check *)
    pose proof (physicsStep_fst delta now (carGroundLevel (gameState w))
                  (vehicleState w) c) as Hfst.
    destruct (physicsStep _ _ _ _ _) as [vs' c'] eqn:Hs. cbn [fst snd] in *.
    cbn [gameState set_car set_vehicleState]; rewrite Hf; cbn [negb].
    apply (UpdateMoved _ _ _ _ c); try assumption.
    + unfold raceOn; rewrite Hp; reflexivity.
    + rewrite updateCarCamera_gameState; reflexivity.
    + rewrite updateCarCamera_vehicleState; cbn. exact Hfst.
    + rewrite updateCarCamera_car; cbn. rewrite Hs; reflexivity.
  - (* playing: the collision check runs *)
    pose proof (physicsStep_fst delta now (carGroundLevel (gameState w))
                  (vehicleState w) c) as Hfst.
    destruct (physicsStep _ _ _ _ _) as [vs' c'] eqn:Hs. cbn [fst snd] in *.
    cbn [gameState set_car set_vehicleState]; rewrite Hf; cbn [negb].
    set (w1 := set_car (Some c') (set_vehicleState vs' w)).
    destruct (checkCollisions_cases w1)
      as [(Hg & Hv & Hcar) | (Hpl & Hfr & Hgl & Hv & c1 & Hc1 & Hcar)].
    + apply (UpdateMoved _ _ _ _ c); try assumption.
      * unfold raceOn; rewrite Hp; reflexivity.
      * rewrite updateCarCamera_gameState, Hg; reflexivity.
      * rewrite updateCarCamera_vehicleState, Hv; cbn. exact Hfst.
      * rewrite updateCarCamera_car, Hcar; cbn. rewrite Hs; reflexivity.
    + apply (UpdateEnded _ _ _ _ c); try assumption.
      * rewrite updateCarCamera_gameState. unfold raceOn.
        rewrite Hpl, Hfr; cbn. exact Hf.
      * rewrite updateCarCamera_gameState, Hgl; reflexivity.
      * rewrite updateCarCamera_vehicleState, Hv; cbn. rewrite Hfst.
        reflexivity.
      * rewrite updateCarCamera_car. cbn in Hc1. inversion Hc1; subst c1.
        rewrite Hs; cbn [snd].
        destruct Hcar as [Hcar | Hcar]; rewrite Hcar; eexists; split;
          reflexivity.
  - (* free roam *)
    pose proof (physicsStep_fst delta now (carGroundLevel (gameState w))
                  (vehicleState w) c) as Hfst.
    destruct (physicsStep _ _ _ _ _) as [vs' c'] eqn:Hs. cbn [fst snd] in *.
    cbn [gameState set_car set_vehicleState]; rewrite Hf; cbn [negb].
    apply (UpdateMoved _ _ _ _ c); try assumption.
    + unfold raceOn; rewrite Hp, Hf; reflexivity.
    + rewrite updateCarCamera_gameState; reflexivity.
    + rewrite updateCarCamera_vehicleState; cbn. exact Hfst.
    + rewrite updateCarCamera_car; cbn. rewrite Hs; reflexivity.
  - apply UpdateSkipped; [reflexivity|].
    right; unfold raceOn; rewrite Hp, Hf; reflexivity.
Qed.

End WorldLemmas.

(** ** Acceleration with the handbrake released *)

Lemma accelerate_accelerating delta vs :
  accelerating vs = true ->
  accelerate delta vs = set_velocity (velocity vs + acceleration vs * delta) vs.
Proof. intros Ha; unfold accelerate; rewrite Ha; reflexivity. Qed.

Lemma drift_inactive_velocity delta vs c :
  driftActive vs = false -> velocity (fst (drift delta (vs, c))) = velocity vs.
Proof.
  intros Hd; unfold drift; rewrite Hd.
  cbn [fst velocity set_driftFactor set_driftAngle set_driftVelocity
       driftFactor].
  destruct (_ <? _); reflexivity.
Qed.

Lemma drift_active_velocity delta vs c :
  driftActive vs = true ->
  velocity (fst (drift delta (vs, c))) = velocity vs * driftFriction vs.
Proof.
  intros Hd; unfold drift; rewrite Hd.
  destruct (steeringLeft _ || steeringRight _); reflexivity.
Qed.

Lemma accelerating_velocity delta vs c :
  accelerating vs = true -> driftOff delta vs ->
  velocity (fst (physicsState delta vs c))
  = clamp (velocity vs + acceleration vs * delta)
          (- maxSpeed vs * 0.3) (maxSpeed vs).
Proof.
  intros Ha Hoff; rewrite physicsState_velocity.
  rewrite accelerate_accelerating by exact Ha.
  rewrite drift_inactive_velocity; [reflexivity|].
  unfold driftActive.
  change (handbrake vs
          && (Rabs (velocity vs + acceleration vs * delta) >? 3) = false).
  destruct Hoff as [Hh | Hslow].
  - rewrite Hh; reflexivity.
  - apply andb_false_iff; right; apply Rltb_false; exact Hslow.
Qed.

Lemma clamp_raise (v a lo hi : R) :
  lo <= hi -> 0 < a -> v < hi -> v < clamp (v + a) lo hi <= hi.
Proof.
  intros Hle Ha Hv; unfold clamp, Rmax, Rmin.
  destruct (Rle_dec hi (v + a)); destruct (Rle_dec lo _); lra.
Qed.

Lemma accelerating_raises delta vs c :
  accelerating vs = true -> driftOff delta vs ->
  0 < acceleration vs -> 0 <= maxSpeed vs -> 0 < delta ->
  velocity vs < maxSpeed vs ->
  velocity vs < velocity (fst (physicsState delta vs c)) <= maxSpeed vs.
Proof.
  intros Ha Hh Hacc Hmax Hd Hv.
  rewrite accelerating_velocity by assumption.
  apply clamp_raise; [lra | | exact Hv].
  apply Rmult_lt_0_compat; assumption.
Qed.

Lemma accelerating_at_cap delta vs c :
  accelerating vs = true -> driftOff delta vs ->
  0 < acceleration vs -> 0 <= maxSpeed vs -> 0 < delta ->
  velocity vs = maxSpeed vs ->
  velocity (fst (physicsState delta vs c)) = maxSpeed vs.
Proof.
  intros Ha Hh Hacc Hmax Hd Hv.
  rewrite accelerating_velocity by assumption.
  apply clamp_above; [lra|].
  pose proof (Rmult_lt_0_compat _ _ Hacc Hd); lra.
Qed.

(** ** The height of the car *)

Lemma moveCar_height delta now ground vs c :
  y (Car.position (moveCar delta now ground vs c)) = ground.
Proof. unfold moveCar; destruct (isDrifting vs); reflexivity. Qed.

Lemma physicsStep_height delta now ground vs c :
  y (Car.position (snd (physicsStep delta now ground vs c))) = ground.
Proof.
  unfold physicsStep; destruct (physicsState delta vs c) as [vs' c'].
  apply moveCar_height.
Qed.

Section Physics.

Context {host : Host}.

Lemma update_inBounds delta now w :
  0 <= delta -> inBounds (vehicleState w) ->
  inBounds (vehicleState (updateVehiclePhysics delta now w)).
Proof.
  intros Hd Hb.
  destruct (updateVehiclePhysics_cases delta now w)
    as [Heq _ | c _ _ _ Hv _ | c _ _ _ _ _ Hv _].
  - rewrite Heq; exact Hb.
  - rewrite Hv; apply physicsState_inBounds; assumption.
  - rewrite Hv; apply stopCar_inBounds, physicsState_inBounds; assumption.
Qed.

Lemma frame_inBounds f w :
  0 <= elapsed f -> inBounds (vehicleState w) ->
  inBounds (vehicleState (frame f w)).
Proof.
  intros He Hb; unfold frame, animate.
  apply update_inBounds.
  - unfold Rmin; destruct (Rle_dec _ _); lra.
  - cbn [gameState set_vehicleState].
    destruct (isPlaying (gameState w)); cbn; exact Hb.
Qed.

(** C1. Starting from a vehicle state with velocity in
    [[-maxSpeed*0.3, maxSpeed]] and driftFactor in [[0,1]], one call of
    [updateVehiclePhysics] with [delta] in [[0, 0.1]], whatever the five
    control flags are, leaves both within these bounds; and so does any
    sequence of frames, each with its own elapsed time, clock and control
    flags. *)
Theorem velocity_and_driftFactor_stay_in_bounds (w : World) :
  inBounds (vehicleState w) ->
  (forall delta now input,
      0 <= delta <= 0.1 ->
      inBounds (vehicleState
                  (updateVehiclePhysics delta now
                     (set_vehicleState
                        (set_controls input (vehicleState w)) w))))
  /\ (forall frames,
         Forall (fun f => 0 <= elapsed f) frames ->
         inBounds (vehicleState (run frames w))).
Proof.
  intros Hb; split.
  - intros delta now0 input0 [Hd _].
    apply update_inBounds; [exact Hd | exact Hb].
  - intros frames; revert w Hb.
    induction frames as [|f rest IH]; intros w Hb Hall; cbn [run].
    + exact Hb.
    + inversion Hall as [|? ? Hf Hrest]; subst.
      apply IH; [|exact Hrest].
      apply frame_inBounds; assumption.
Qed.

(** C10. A call of [updateVehiclePhysics] ends with the car at height
    [gameState.carGroundLevel], whatever the state, the controls and [delta]
    are: the physics of the frame puts it there when it runs (the race is on
    or the player roams freely), and a call that does nothing leaves a car
    that was there where it was. *)
Theorem car_ends_at_ground_level (delta now0 : R) (w : World) (c : Car.t) :
  car w = Some c ->
  raceOn (gameState w) = true
  \/ y (Car.position c) = carGroundLevel (gameState w) ->
  exists c',
    car (updateVehiclePhysics delta now0 w) = Some c'
    /\ y (Car.position c')
       = carGroundLevel (gameState (updateVehiclePhysics delta now0 w))
    /\ carGroundLevel (gameState (updateVehiclePhysics delta now0 w))
       = carGroundLevel (gameState w).
Proof.
  intros Hc Hon.
  destruct (updateVehiclePhysics_cases delta now0 w)
    as [Heq [Hn | Hoff] | c1 Hc1 _ Hg _ Hcar
        | c1 Hc1 _ _ _ Hgl _ (c' & Hcar & Hpos)].
  - congruence.
  - destruct Hon as [Hon | Hy]; [congruence|].
    rewrite Heq; exists c; auto.
  - eexists; split; [exact Hcar|].
    rewrite Hg, physicsStep_height; split; reflexivity.
  - exists c'; split; [exact Hcar|].
    rewrite Hpos, physicsStep_height, Hgl; split; reflexivity.
Qed.

(** C6, amended. With [accelerating] set, the velocity below [maxSpeed],
    [delta] in [(0, 0.1]] and the drift system out of the step (the
    handbrake released, or the speed after the acceleration not above 3), a
    call of [updateVehiclePhysics] that does not end the race raises the
    velocity strictly, never above [maxSpeed], whatever the other control
    flags are; and a second such call raises it again, unless the first one
    reached [maxSpeed], where it then stays. *)
Theorem accelerating_raises_velocity (delta now1 now2 : R) (w : World)
  (c : Car.t) :
  let vs := vehicleState w in
  let w1 := updateVehiclePhysics delta now1 w in
  let w2 := updateVehiclePhysics delta now2 w1 in
  car w = Some c -> raceOn (gameState w) = true ->
  0 < acceleration vs -> 0 <= maxSpeed vs ->
  accelerating vs = true -> driftOff delta vs ->
  velocity vs < maxSpeed vs -> 0 < delta <= 0.1 ->
  raceOn (gameState w1) = true ->
  velocity vs < velocity (vehicleState w1) <= maxSpeed vs
  /\ (driftOff delta (vehicleState w1) -> raceOn (gameState w2) = true ->
      velocity (vehicleState w1) < velocity (vehicleState w2) <= maxSpeed vs
      \/ (velocity (vehicleState w1) = maxSpeed vs
          /\ velocity (vehicleState w2) = maxSpeed vs)).
Proof.
  cbv zeta; intros Hc Hon Hacc Hmax Ha Hoff Hv [Hd _].
  set (vs := vehicleState w) in *.
  pose proof (updateVehiclePhysics_cases delta now1 w) as U1.
  remember (updateVehiclePhysics delta now1 w) as w1 eqn:Ew1.
  intros Hon1.
  destruct U1
    as [_ [Hn | Hskip] | c1 Hc1 _ Hg1 Hv1 Hcar1 | c1 _ _ _ Hend _ _ _];
    try congruence.
  assert (Hc1' : c1 = c) by congruence; subst c1.
  pose proof (physicsState_settings delta vs c) as Hset; fold vs in Hv1.
  assert (Hstep : velocity vs < velocity (vehicleState w1) <= maxSpeed vs).
  { rewrite Hv1; apply accelerating_raises; assumption. }
  split; [exact Hstep|].
  pose proof (updateVehiclePhysics_cases delta now2 w1) as U2.
  remember (updateVehiclePhysics delta now2 w1) as w2 eqn:Ew2.
  intros Hoff1 Hon2.
  destruct U2
    as [_ [Hn | Hskip] | c2 Hc2 _ Hg2 Hv2 _ | c2 _ _ _ Hend _ _ _];
    try congruence.
  assert (Hms : maxSpeed (vehicleState w1) = maxSpeed vs)
    by (rewrite Hv1; apply settings_maxSpeed, Hset).
  assert (Hac : acceleration (vehicleState w1) = acceleration vs)
    by (rewrite Hv1; apply settings_acceleration, Hset).
  assert (Hag : accelerating (vehicleState w1) = true)
    by (rewrite <- Ha, Hv1; apply settings_accelerating, Hset).
  destruct Hstep as [Hlt [Hbelow | Hcap]].
  - left. rewrite Hv2, <- Hms.
    apply accelerating_raises; try assumption; rewrite ?Hac, ?Hms; assumption.
  - right; split; [exact Hcap|].
    rewrite Hv2, <- Hms.
    apply accelerating_at_cap; try assumption; rewrite ?Hac, ?Hms; assumption.
Qed.

End Physics.

(** ** The loops of the collision check *)

Lemma hitsObstacle_true carBB obs :
  hitsObstacle carBB obs = true <-> intersectsObstacle carBB obs.
Proof.
  unfold intersectsObstacle; induction obs as [|o rest IH]; cbn.
  - split; [discriminate | intros (o & [] & _)].
  - destruct (Box.intersectsBox carBB (obstacleBB o)) eqn:Ho.
    + split; [intros _; exists o; auto | reflexivity].
    + rewrite IH; split.
      * intros (o' & Hin & Hi); exists o'; auto.
      * intros (o' & [Heq | Hin] & Hi); [congruence | exists o'; auto].
Qed.

Lemma hitsObstacle_false carBB obs :
  hitsObstacle carBB obs = false <-> ~ intersectsObstacle carBB obs.
Proof.
  rewrite <- hitsObstacle_true.
  destruct (hitsObstacle carBB obs); split; congruence.
Qed.

Lemma hitsObstacle_permutation carBB obs obs' :
  Permutation obs obs' -> hitsObstacle carBB obs = hitsObstacle carBB obs'.
Proof.
  intros Hp; induction Hp as [|o l l' _ IH|o1 o2 l|l l' l'' _ IH1 _ IH2]; cbn.
  - reflexivity.
  - rewrite IH; reflexivity.
  - destruct (Box.intersectsBox carBB (obstacleBB o1));
      destruct (Box.intersectsBox carBB (obstacleBB o2)); reflexivity.
  - congruence.
Qed.

Lemma inSegment_true p segment :
  inSegment (x p) (z p) segment = true <-> withinSegment p segment.
Proof.
  unfold inSegment, withinSegment.
  cmp_cases; cbn; split; intros H; try discriminate; try lra; reflexivity.
Qed.

Lemma onTrack_true p segments :
  onTrack (x p) (z p) segments = true
  <-> exists segment, In segment segments /\ withinSegment p segment.
Proof.
  induction segments as [|s rest IH]; cbn.
  - split; [discriminate | intros (s & [] & _)].
  - destruct (inSegment (x p) (z p) s) eqn:Hs.
    + split; [|reflexivity].
      intros _; exists s; split; [auto | apply inSegment_true, Hs].
    + rewrite IH; split.
      * intros (s' & Hin & Hw); exists s'; auto.
      * intros (s' & [Heq | Hin] & Hw); [|exists s'; auto].
        subst s'; apply inSegment_true in Hw; congruence.
Qed.

Lemma verdict_permutation carBB p obs obs' gs :
  Permutation obs obs' -> verdict carBB p obs gs = verdict carBB p obs' gs.
Proof.
  intros Hp; unfold verdict.
  rewrite (hitsObstacle_permutation carBB obs obs' Hp); reflexivity.
Qed.

Section Checker.

Context {host : Host}.

(** [checkCollisions] on a world where it runs: the reduced box is stored,
    and the verdict selects what happens. *)
Lemma checkCollisions_runs w c bb :
  car w = Some c -> carBoundingBox w = Some bb ->
  isPlaying (gameState w) = true ->
  let carBB := reducedCarBox (setFromObject c) in
  let w1 := set_carBoundingBox (Some carBB) w in
  checkCollisions w
  = match verdict carBB (Car.position c) (obstacles w) (gameState w) with
    | Crashed =>
        gameOver false None
          (set_car (Some (Car.set_visible false c))
                   (createExplosion (Car.position c) w1))
    | Finished => gameOver true None w1
    | OutOfBounds => gameOver false (Some "OUT OF BOUNDS!"%string) w1
    | Ongoing => w1
    end.
Proof.
  intros Hc Hb Hp; unfold checkCollisions; rewrite Hc, Hb, Hp; reflexivity.
Qed.

Lemma gameOver_set_obstacles won reason obs w :
  gameOver won reason (set_obstacles obs w)
  = set_obstacles obs (gameOver won reason w).
Proof.
  unfold gameOver; destruct won; cbn; [|reflexivity].
  destruct (improvesBest _ _); reflexivity.
Qed.

(** C2. A car that has passed the finish line ([z] below [finishLineZ])
    and meets no obstacle is Finished, never OutOfBounds, wherever it is
    with respect to the track segments: [checkCollisions] calls
    [gameOver(true)] and the game is won. *)
Theorem finish_is_checked_before_bounds (w : World) (c : Car.t) (bb : Box3) :
  let carBB := reducedCarBox (setFromObject c) in
  let v := verdict carBB (Car.position c) (obstacles w) (gameState w) in
  car w = Some c -> carBoundingBox w = Some bb ->
  isPlaying (gameState w) = true ->
  ~ intersectsObstacle carBB (obstacles w) ->
  z (Car.position c) < finishLineZ (gameState w) ->
  v = Finished /\ v <> OutOfBounds
  /\ checkCollisions w
     = gameOver true None (set_carBoundingBox (Some carBB) w)
  /\ hasWon (gameState (checkCollisions w)) = true
  /\ hasLost (gameState (checkCollisions w)) = false.
Proof.
  cbv zeta; intros Hc Hb Hp Hno Hz.
  assert (Hv : verdict (reducedCarBox (setFromObject c)) (Car.position c)
                 (obstacles w) (gameState w) = Finished).
  { unfold verdict. apply hitsObstacle_false in Hno; rewrite Hno.
    apply Rltb_true in Hz; rewrite Hz; reflexivity. }
  rewrite (checkCollisions_runs w c bb Hc Hb Hp); cbv zeta; rewrite Hv.
  split; [reflexivity|]. split; [discriminate|]. split; [reflexivity|].
  match goal with |- context [gameOver ?a ?b ?w'] =>
    destruct (gameOver_flags a b w') as (_ & Hw & Hl & _) end.
  split; assumption.
Qed.

(** C5. For a car that meets no obstacle and has not passed the finish
    line, the verdict is OutOfBounds exactly when no track segment holds the
    car (range along the track and lateral window) and the car is past the
    start line ([z < 0]); at [z >= 0] the verdict is Ongoing whatever the
    lateral position is. [checkCollisions] then calls
    [gameOver(false, "OUT OF BOUNDS!")], or leaves the game as it is. *)
Theorem out_of_bounds_only_past_the_start (w : World) (c : Car.t) (bb : Box3) :
  let carBB := reducedCarBox (setFromObject c) in
  let p := Car.position c in
  let v := verdict carBB p (obstacles w) (gameState w) in
  let w1 := set_carBoundingBox (Some carBB) w in
  car w = Some c -> carBoundingBox w = Some bb ->
  isPlaying (gameState w) = true ->
  ~ intersectsObstacle carBB (obstacles w) ->
  ~ z p < finishLineZ (gameState w) ->
  (v = OutOfBounds
   <-> (~ exists segment,
            In segment (trackSegments (gameState w))
            /\ withinSegment p segment)
       /\ z p < 0)
  /\ (0 <= z p -> v = Ongoing)
  /\ (v = OutOfBounds ->
      checkCollisions w = gameOver false (Some "OUT OF BOUNDS!"%string) w1)
  /\ (v = Ongoing -> checkCollisions w = w1).
Proof.
  cbv zeta; intros Hc Hb Hp Hno Hz.
  rewrite (checkCollisions_runs w c bb Hc Hb Hp); cbv zeta.
  unfold verdict. apply hitsObstacle_false in Hno; rewrite Hno.
  assert (Hz' : (z (Car.position c) <? finishLineZ (gameState w)) = false)
    by (apply Rltb_false; lra).
  rewrite Hz'.
  pose proof (onTrack_true (Car.position c) (trackSegments (gameState w)))
    as Hon.
  destruct (onTrack _ _ _) eqn:Ht; cbn [negb andb].
  - repeat split; try discriminate; try reflexivity.
    intros [Hnone _]; exfalso; apply Hnone, Hon; reflexivity.
  - assert (Hnone : ~ exists segment,
               In segment (trackSegments (gameState w))
               /\ withinSegment (Car.position c) segment).
    { intros Hex; apply Hon in Hex; discriminate. }
    destruct (z (Car.position c) <? 0) eqn:H0;
      [apply Rltb_true in H0 | apply Rltb_false in H0].
    + repeat split; try assumption; try reflexivity; try discriminate.
      intros; lra.
    + repeat split; try reflexivity; try discriminate.
      intros [_ Hlt]; lra.
Qed.

(** C7. The verdict for a pose does not depend on the order of the obstacle
    array: with the obstacles permuted, the verdict is the same and
    [checkCollisions] leaves the same world. *)
Theorem verdict_independent_of_obstacle_order (w : World)
  (obs' : list Vector3) :
  Permutation (obstacles w) obs' ->
  (forall carBB p,
      verdict carBB p obs' (gameState w)
      = verdict carBB p (obstacles w) (gameState w))
  /\ (forall carBB,
         intersectsObstacle carBB obs'
         <-> intersectsObstacle carBB (obstacles w))
  /\ checkCollisions (set_obstacles obs' w)
     = set_obstacles obs' (checkCollisions w).
Proof.
  intros Hperm; split; [|split].
  - intros carBB p; symmetry; apply verdict_permutation, Hperm.
  - intros carBB; rewrite <- !hitsObstacle_true.
    rewrite (hitsObstacle_permutation carBB _ _ Hperm); reflexivity.
  - unfold checkCollisions; cbn.
    destruct (car w) as [c|]; [|reflexivity].
    destruct (carBoundingBox w); [|reflexivity].
    destruct (isPlaying (gameState w)); cbn [negb]; [|reflexivity].
    rewrite <- (verdict_permutation _ _ _ _ _ Hperm).
    destruct (verdict _ _ _ _); try reflexivity;
      rewrite <- gameOver_set_obstacles; reflexivity.
Qed.

(** C9. A car that in one frame meets the collision box of an obstacle and
    is also past the finish line has Crashed, not Finished: the obstacles
    are scanned first, and [checkCollisions] calls [gameOver(false)] after
    the explosion, with the car hidden. *)
Theorem crash_is_checked_before_finish (w : World) (c : Car.t) (bb : Box3) :
  let carBB := reducedCarBox (setFromObject c) in
  let v := verdict carBB (Car.position c) (obstacles w) (gameState w) in
  car w = Some c -> carBoundingBox w = Some bb ->
  isPlaying (gameState w) = true ->
  intersectsObstacle carBB (obstacles w) ->
  z (Car.position c) < finishLineZ (gameState w) ->
  v = Crashed /\ v <> Finished
  /\ checkCollisions w
     = gameOver false None
         (set_car (Some (Car.set_visible false c))
            (createExplosion (Car.position c)
               (set_carBoundingBox (Some carBB) w)))
  /\ hasWon (gameState (checkCollisions w)) = false
  /\ hasLost (gameState (checkCollisions w)) = true.
Proof.
  cbv zeta; intros Hc Hb Hp Hhit _.
  assert (Hv : verdict (reducedCarBox (setFromObject c)) (Car.position c)
                 (obstacles w) (gameState w) = Crashed).
  { unfold verdict. apply hitsObstacle_true in Hhit; rewrite Hhit.
    reflexivity. }
  rewrite (checkCollisions_runs w c bb Hc Hb Hp); cbv zeta; rewrite Hv.
  split; [reflexivity|]. split; [discriminate|]. split; [reflexivity|].
  match goal with |- context [gameOver ?a ?b ?w'] =>
    destruct (gameOver_flags a b w') as (_ & Hw & Hl & _) end.
  split; assumption.
Qed.

End Checker.

(** ** Steering *)

(** C3, amended. The target steer angle is [maxSteerAngle] when only
    [steeringLeft] is set, [-maxSteerAngle] when only [steeringRight] is set,
    and [0] when neither is set; when both are set the two contributions
    cancel and the target is [0] as well. The steering update moves
    [steerAngle] towards this target. *)
Theorem target_steer_angle_adds_both_sides (vs : VehicleState) :
  (steeringLeft vs = true -> steeringRight vs = false ->
   targetSteerAngle vs = maxSteerAngle vs)
  /\ (steeringLeft vs = false -> steeringRight vs = true ->
      targetSteerAngle vs = - maxSteerAngle vs)
  /\ (steeringLeft vs = false -> steeringRight vs = false ->
      targetSteerAngle vs = 0)
  /\ (steeringLeft vs = true -> steeringRight vs = true ->
      targetSteerAngle vs = 0)
  /\ (forall delta,
         steerAngle (steer delta vs)
         = lerp (steerAngle vs) (targetSteerAngle vs)
                (steerSpeed vs * delta * 3)).
Proof.
  unfold targetSteerAngle.
  repeat split; try (intros Hl Hr; rewrite Hl, Hr; lra).
Qed.

(** ** The best time *)

Section BestTime.

Context {host : Host}.

Lemma truthy_parsed (s : string) (best : R) :
  parseFloat s = Some best -> truthy (Some s) = true.
Proof.
  intros Hp; cbn. destruct (String.eqb s "") eqn:He; [|reflexivity].
  apply String.eqb_eq in He; subst s.
  rewrite parseFloat_empty in Hp; discriminate.
Qed.

(** C4. [gameOver(true)] with race time [t]: when nothing is stored under
    ['bestTime'], or [t] is strictly below the stored time, the store and
    [gameState.bestTime] become [t.toFixed(2)] and the new record is shown
    (in the message and in the record display); when [t] is equal to or
    above the stored time, the store, [gameState.bestTime] and the record
    display stay as they are and the message is the plain one. *)
Theorem best_time_updated_only_when_lower (reason : option string)
  (w : World) :
  let t := raceTime (gameState w) in
  let time := toFixed2 t in
  let previousBest := storedBestTime w in
  let w' := gameOver true reason w in
  ((previousBest = None
    \/ exists s best,
         previousBest = Some s /\ parseFloat s = Some best /\ t < best) ->
   storedBestTime w' = Some time
   /\ bestTime (gameState w') = Some time
   /\ messageHTML (ui w')
      = [YouWon time; NewRecord (orElse previousBest "N/A")]
   /\ recordTime (ui w') = Some time)
  /\ ((exists s best,
          previousBest = Some s /\ parseFloat s = Some best /\ best <= t) ->
      storedBestTime w' = previousBest
      /\ bestTime (gameState w') = bestTime (gameState w)
      /\ messageHTML (ui w') = [YouWon time]
      /\ recordTime (ui w') = recordTime (ui w)).
Proof.
  cbv zeta; split.
  - intros Hlow.
    assert (Hi : improvesBest (raceTime (gameState w)) (storedBestTime w)
                 = true).
    { unfold improvesBest.
      destruct Hlow as [Hn | (s & best & Hs & Hp & Hlt)].
      - rewrite Hn; reflexivity.
      - rewrite Hs, Hp. apply Rltb_true in Hlt; rewrite Hlt.
        apply orb_true_r. }
    unfold gameOver; cbn. rewrite Hi; cbn. repeat split.
  - intros (s & best & Hs & Hp & Hge).
    assert (Hi : improvesBest (raceTime (gameState w)) (storedBestTime w)
                 = false).
    { unfold improvesBest. rewrite Hs, Hp, (truthy_parsed s best Hp).
      apply Rltb_false in Hge; rewrite Hge; reflexivity. }
    unfold gameOver; cbn. rewrite Hi; cbn. repeat split.
Qed.

End BestTime.

(** ** The camera *)

Lemma lerp_reaches_only_from_there (a b alpha : R) :
  alpha <> 1 -> a + (b - a) * alpha = b -> a = b.
Proof.
  intros Halpha Heq.
  assert (H : (b - a) * (alpha - 1) = 0) by lra.
  apply Rmult_integral in H; destruct H; lra.
Qed.

Section CameraFollower.

Context {host : Host}.

(** [resetCar] puts the car on the ground, and a camera call with
    [delta = 0] after it finds the camera where the reset has put it. *)
Lemma resetCar_height (w : World) (c : Car.t) :
  car w = Some c ->
  exists c', car (resetCar w) = Some c'
             /\ Car.position c'
                = mkVector3 0 (carGroundLevel (gameState (resetCar w))) 0.
Proof.
  intros Hc; unfold resetCar; rewrite Hc.
  rewrite updateCarCamera_car, updateCarCamera_gameState.
  eexists; split; reflexivity.
Qed.

Lemma updateCarCamera_zero_twice (w : World) :
  Camera.position (camera (updateCarCamera 0 (updateCarCamera 0 w)))
  = Camera.position (camera (updateCarCamera 0 w)).
Proof.
  unfold updateCarCamera.
  replace (0 >? 0) with false by (symmetry; apply Rltb_false; lra).
  destruct (car w) eqn:Hc; [|rewrite Hc; reflexivity].
  cbn [car set_camera]; rewrite Hc; reflexivity.
Qed.

(** C8. With the car loaded, [updateCarCamera(0)] puts the camera exactly
    at the ideal position (the car position plus the offset behind the
    heading, of length [cameraDistance] and height [cameraHeight], scaled
    with the speed) and makes it look exactly at the ideal look-ahead point;
    with [delta > 0] the position moves the fraction [cameraSmooth * delta]
    of the way to the ideal position, and the point looked at is the point
    10 ahead of the camera moved the same fraction of the way to the ideal
    look-ahead point. *)
Theorem camera_snaps_at_zero_delta (w : World) (c : Car.t) :
  let vs := vehicleState w in
  let p := Car.position c in
  let scale := 1 + Rabs (velocity vs * 0.1) * 0.05 in
  let lookAhead := cameraLookAhead vs + Rabs (velocity vs) * 0.2 in
  let ideal :=
    mkVector3 (x p + - sin (rotation vs) * cameraDistance vs * scale)
              (y p + cameraHeight vs * scale)
              (z p + - cos (rotation vs) * cameraDistance vs * scale) in
  let target :=
    mkVector3 (x p + sin (rotation vs) * lookAhead)
              (y p + 1)
              (z p + cos (rotation vs) * lookAhead) in
  car w = Some c ->
  camera (updateCarCamera 0 w) = Camera.mk ideal (Camera.LookAt ideal target)
  /\ (forall delta,
         0 < delta ->
         let alpha := cameraSmooth vs * delta in
         let old := Camera.position (camera w) in
         let position' :=
           mkVector3 (x old + (x ideal - x old) * alpha)
                     (y old + (y ideal - y old) * alpha)
                     (z old + (z ideal - z old) * alpha) in
         let current :=
           Vec.add (Vec.multiplyScalar
                      (getWorldDirection (Camera.orientation (camera w))) 10)
                   position' in
         let lookedAt :=
           mkVector3 (x current + (x target - x current) * alpha)
                     (y current + (y target - y current) * alpha)
                     (z current + (z target - z current) * alpha) in
         camera (updateCarCamera delta w)
         = Camera.mk position' (Camera.LookAt position' lookedAt)
         /\ (alpha <> 1 -> old <> ideal -> position' <> ideal)).
Proof.
  cbv zeta; intros Hc; split.
  - unfold updateCarCamera; rewrite Hc.
    replace (0 >? 0) with false by (symmetry; apply Rltb_false; lra).
    reflexivity.
  - intros delta Hd; split.
    + unfold updateCarCamera; rewrite Hc.
      replace (delta >? 0) with true by (symmetry; apply Rltb_true; lra).
      reflexivity.
    + intros Halpha Hold Heq; apply Hold.
      destruct (Camera.position (camera w)) as [ox oy oz].
      cbn [x y z] in Heq. injection Heq as Hx Hy Hz.
      f_equal; apply lerp_reaches_only_from_there
        with (alpha := cameraSmooth (vehicleState w) * delta); assumption.
Qed.

End CameraFollower.

(** ** The statements at work on the examples *)

Ltac vec_simpl :=
  unfold reducedCarBox, obstacleBB, trunkSize, Box.intersectsBox,
    Box.setFromCenterAndSize, Box.getCenter, Box.getSize, Box.isEmpty,
    Vec.sub, Vec.add, Vec.multiplyScalar, Vec.setX, Vec.setY, Vec.setZ,
    Vec.lerp;
  cbn [x y z min max Car.position Car.rotation Car.visible].

Ltac eval_boxes := vec_simpl; cmp_decide; cbn [andb orb negb].

Lemma sample_reducedCarBox (c : Car.t) :
  let p := Car.position c in
  reducedCarBox (sampleSetFromObject c)
  = mkBox3 (mkVector3 (x p - 0.75) (y p + 0.1875) (z p - 1.5))
           (mkVector3 (x p + 0.75) (y p + 1.3125) (z p + 1.5)).
Proof.
  cbv zeta. unfold sampleSetFromObject.
  eval_boxes. vec_simpl.
  f_equal; f_equal; lra.
Qed.

Lemma pastTheTrack_clear :
  ~ intersectsObstacle (reducedCarBox (sampleSetFromObject (carAt 0 (-330))))
      obstaclePositions.
Proof.
  apply hitsObstacle_false. rewrite sample_reducedCarBox.
  unfold carAt, obstaclePositions, hitsObstacle.
  eval_boxes. reflexivity.
Qed.

Lemma besideTheTrack_clear :
  ~ intersectsObstacle (reducedCarBox (sampleSetFromObject (carAt 30 (-10))))
      obstaclePositions.
Proof.
  apply hitsObstacle_false. rewrite sample_reducedCarBox.
  unfold carAt, obstaclePositions, hitsObstacle.
  eval_boxes. reflexivity.
Qed.

Lemma treeBehindFinish_hit :
  intersectsObstacle (reducedCarBox (sampleSetFromObject (carAt 0 (-310))))
    [mkVector3 0 0 (-310)].
Proof.
  apply hitsObstacle_true. rewrite sample_reducedCarBox.
  unfold carAt, hitsObstacle.
  eval_boxes. reflexivity.
Qed.

Lemma free_roam_keeps_gameState {host : Host} delta now0 w :
  freeRoam (gameState w) = true ->
  gameState (updateVehiclePhysics delta now0 w) = gameState w.
Proof.
  intros Hf.
  destruct (updateVehiclePhysics_cases delta now0 w)
    as [Heq _ | c _ _ Hg _ _ | c _ _ Hnf _ _ _ _].
  - rewrite Heq; reflexivity.
  - exact Hg.
  - congruence.
Qed.

Lemma drifting_velocity delta vs c :
  accelerating vs = true -> handbrake vs = true ->
  3 < Rabs (velocity vs + acceleration vs * delta) ->
  velocity (fst (physicsState delta vs c))
  = clamp ((velocity vs + acceleration vs * delta) * driftFriction vs)
          (- maxSpeed vs * 0.3) (maxSpeed vs).
Proof.
  intros Ha Hh Hfast; rewrite physicsState_velocity.
  f_equal.
  rewrite accelerate_accelerating by exact Ha.
  rewrite drift_active_velocity; [reflexivity|].
  unfold driftActive.
  change (handbrake vs
          && (Rabs (velocity vs + acceleration vs * delta) >? 3) = true).
  rewrite Hh. apply Rltb_true in Hfast; rewrite Hfast; reflexivity.
Qed.

(** C1 on the start line, with the accelerator, the left key and the
    handbrake held. *)
Lemma bounds_hold_from_the_start_line :
  inBounds (vehicleState sampleWorld)
  /\ inBounds
       (vehicleState
          (@updateVehiclePhysics sampleHost 0.05 0
             (set_vehicleState
                (set_controls (mkControlInput true false true false true)
                   (vehicleState sampleWorld))
                sampleWorld))).
Proof.
  assert (H : inBounds (vehicleState sampleWorld))
    by (unfold inBounds; cbn; lra).
  split; [exact H|].
  apply (proj1 (@velocity_and_driftFactor_stay_in_bounds sampleHost
                  sampleWorld H)).
  lra.
Defined.

(** C10 on the start line. *)
Lemma car_on_the_ground_after_the_first_frame :
  car sampleWorld = Some sampleCar
  /\ raceOn (gameState sampleWorld) = true
  /\ exists c',
       car (@updateVehiclePhysics sampleHost 0.05 0 sampleWorld) = Some c'
       /\ y (Car.position c') = 0.1.
Proof.
  split; [reflexivity|]. split; [reflexivity|].
  destruct (@car_ends_at_ground_level sampleHost 0.05 0 sampleWorld sampleCar
              eq_refl (or_introl eq_refl)) as (c' & Hcar & Hy & Hg).
  exists c'; split; [exact Hcar|].
  rewrite Hy, Hg; reflexivity.
Defined.

(** C6 as stated fails: in free roam at velocity 20, below the maximum of
    25, with the accelerator and the handbrake held, a step of 0.01 s takes
    the velocity to (20 + 15 * 0.01) * 0.95 = 19.1425: it has not increased
    and is not at the maximum. *)
Lemma handbrake_lowers_velocity_while_accelerating :
  let w := roaming true in
  let w1 := @updateVehiclePhysics sampleHost 0.01 0 w in
  velocity (vehicleState w) < maxSpeed (vehicleState w)
  /\ accelerating (vehicleState w) = true
  /\ 0 < 0.01 <= 0.1
  /\ velocity (vehicleState w1) = 19.1425
  /\ ~ (velocity (vehicleState w) < velocity (vehicleState w1)
        \/ velocity (vehicleState w1) = maxSpeed (vehicleState w)).
Proof.
  cbv zeta.
  assert (Hv : velocity (vehicleState
                 (@updateVehiclePhysics sampleHost 0.01 0 (roaming true)))
               = 19.1425).
  { destruct (@updateVehiclePhysics_cases sampleHost 0.01 0 (roaming true))
      as [_ [Hn | Hoff] | c Hc _ _ Hvs _ | c _ _ Hnf _ _ _ _];
      try discriminate.
    rewrite Hvs, drifting_velocity; try reflexivity.
    - cbn [roaming vehicleState set_gameState set_vehicleState set_controls
             set_velocity sampleWorld velocity acceleration driftFriction
             maxSpeed initialVehicleState set_rotation].
      rewrite clamp_inside; lra.
    - cbn [roaming vehicleState set_gameState set_vehicleState set_controls
             set_velocity sampleWorld velocity acceleration driftFriction
             maxSpeed initialVehicleState set_rotation].
      rewrite Rabs_right; lra. }
  rewrite Hv.
  cbn [roaming vehicleState set_gameState set_vehicleState set_controls
         set_velocity sampleWorld velocity accelerating maxSpeed
         initialVehicleState set_rotation in_accelerating].
  repeat split; lra.
Qed.

(** C6, amended, in free roam with the handbrake released. *)
Lemma velocity_rises_in_free_roam :
  let w := roaming false in
  let w1 := @updateVehiclePhysics sampleHost 0.05 0 w in
  velocity (vehicleState w) < maxSpeed (vehicleState w)
  /\ velocity (vehicleState w) < velocity (vehicleState w1) <= 25.
Proof.
  cbv zeta.
  assert (Hon : raceOn (gameState
                  (@updateVehiclePhysics sampleHost 0.05 0 (roaming false)))
                = true)
    by (rewrite free_roam_keeps_gameState; reflexivity).
  split; [cbn; lra|].
  refine (proj1 (@accelerating_raises_velocity sampleHost 0.05 0 0
                   (roaming false) sampleCar eq_refl eq_refl _ _ eq_refl
                   (or_introl eq_refl) _ _ Hon)); cbn; lra.
Defined.

(** C2 behind the last segment of the track: no segment holds the car, and
    the race is won. *)
Lemma finished_behind_the_last_segment :
  z (Car.position (carAt 0 (-330))) < finishLineZ (gameState pastTheTrack)
  /\ onTrack 0 (-330) (trackSegments (gameState pastTheTrack)) = false
  /\ hasWon (gameState (@checkCollisions sampleHost pastTheTrack)) = true.
Proof.
  assert (Hz : z (Car.position (carAt 0 (-330)))
               < finishLineZ (gameState pastTheTrack)) by (cbn; lra).
  split; [exact Hz|]. split.
  - cbn. unfold inSegment; cbn. cmp_decide. reflexivity.
  - apply (@finish_is_checked_before_bounds sampleHost pastTheTrack
             (carAt 0 (-330)) (sampleSetFromObject sampleCar)
             eq_refl eq_refl eq_refl pastTheTrack_clear Hz).
Defined.

(** C5 beside the first straight. *)
Lemma out_of_bounds_beside_the_first_straight :
  ~ z (Car.position (carAt 30 (-10))) < finishLineZ (gameState besideTheTrack)
  /\ verdict (reducedCarBox (sampleSetFromObject (carAt 30 (-10))))
       (Car.position (carAt 30 (-10))) obstaclePositions
       (gameState besideTheTrack)
     = OutOfBounds.
Proof.
  assert (Hz : ~ z (Car.position (carAt 30 (-10)))
                 < finishLineZ (gameState besideTheTrack)) by (cbn; lra).
  split; [exact Hz|].
  apply (proj1 (@out_of_bounds_only_past_the_start sampleHost besideTheTrack
                  (carAt 30 (-10)) (sampleSetFromObject sampleCar)
                  eq_refl eq_refl eq_refl besideTheTrack_clear Hz)).
  split; [|cbn; lra].
  intros Hex; apply onTrack_true in Hex; revert Hex.
  cbn. unfold inSegment; cbn. cmp_decide. discriminate.
Defined.

(** C7 with the obstacles of the track in reverse order. *)
Lemma reversed_obstacles_same_world :
  Permutation (obstacles sampleWorld) (rev obstaclePositions)
  /\ @checkCollisions sampleHost
       (set_obstacles (rev obstaclePositions) sampleWorld)
     = set_obstacles (rev obstaclePositions)
         (@checkCollisions sampleHost sampleWorld).
Proof.
  assert (Hp : Permutation (obstacles sampleWorld) (rev obstaclePositions))
    by apply Permutation_rev.
  split; [exact Hp|].
  apply (@verdict_independent_of_obstacle_order sampleHost sampleWorld
           (rev obstaclePositions) Hp).
Defined.

(** C9 with a tree behind the finish line. *)
Lemma crashed_behind_the_finish_line :
  z (Car.position (carAt 0 (-310))) < finishLineZ (gameState treeBehindFinish)
  /\ hasWon (gameState (@checkCollisions sampleHost treeBehindFinish)) = false
  /\ hasLost (gameState (@checkCollisions sampleHost treeBehindFinish)) = true.
Proof.
  assert (Hz : z (Car.position (carAt 0 (-310)))
               < finishLineZ (gameState treeBehindFinish)) by (cbn; lra).
  split; [exact Hz|].
  apply (@crash_is_checked_before_finish sampleHost treeBehindFinish
           (carAt 0 (-310)) (sampleSetFromObject sampleCar)
           eq_refl eq_refl eq_refl treeBehindFinish_hit Hz).
Defined.

(** C3 as stated fails: with both keys held and [maxSteerAngle] 0.15 the
    target is 0.15 - 0.15 = 0, not 0.15. *)
Lemma both_sides_held_target_is_not_left :
  steeringLeft bothSidesHeld = true
  /\ steeringRight bothSidesHeld = true
  /\ targetSteerAngle bothSidesHeld = 0
  /\ targetSteerAngle bothSidesHeld <> maxSteerAngle bothSidesHeld.
Proof.
  unfold targetSteerAngle; cbn. repeat split; lra.
Qed.

(** C3, amended, with both keys held. *)
Lemma both_sides_held_target_is_zero :
  steeringLeft bothSidesHeld = true
  /\ steeringRight bothSidesHeld = true
  /\ targetSteerAngle bothSidesHeld = 0.
Proof.
  split; [reflexivity|]. split; [reflexivity|].
  apply (proj1 (proj2 (proj2 (proj2
           (target_steer_angle_adds_both_sides bothSidesHeld)))));
    reflexivity.
Defined.

(** C4 with 11.98 s against a stored 12.50 s. *)
Lemma new_record_after_1198 :
  @parseFloat sampleHost "12.50" = Some 12.5
  /\ raceTime (gameState wonIn1198) < 12.5
  /\ storedBestTime (@gameOver sampleHost true None wonIn1198)
     = Some "11.98"%string.
Proof.
  assert (Ht : raceTime (gameState wonIn1198) < 12.5) by (cbn; lra).
  split; [reflexivity|]. split; [exact Ht|].
  apply (proj1 (@best_time_updated_only_when_lower sampleHost None wonIn1198)).
  right; exists "12.50"%string, 12.5.
  split; [reflexivity|]. split; [reflexivity|exact Ht].
Defined.

(** C8 on the start line. *)
Lemma camera_behind_the_car_on_the_start_line :
  car sampleWorld = Some sampleCar
  /\ Camera.position (camera (@updateCarCamera sampleHost 0 sampleWorld))
     = mkVector3 (0 + - sin PI * 8 * (1 + Rabs (0 * 0.1) * 0.05))
                 (0.1 + 4 * (1 + Rabs (0 * 0.1) * 0.05))
                 (0 + - cos PI * 8 * (1 + Rabs (0 * 0.1) * 0.05)).
Proof.
  split; [reflexivity|].
  rewrite (proj1 (@camera_snaps_at_zero_delta sampleHost sampleWorld sampleCar
                    eq_refl)).
  reflexivity.
Defined.

(** * Further properties *)

(** ** Coasting, braking and standing still *)

Lemma accelerate_coasting delta vs :
  accelerating vs = false -> braking vs = false ->
  0 <= friction vs -> 0 <= delta ->
  (0 <= velocity vs -> 0 <= velocity (accelerate delta vs) <= velocity vs)
  /\ (velocity vs <= 0 ->
      velocity vs <= velocity (accelerate delta vs) <= 0)
  /\ (Rabs (velocity vs) <= friction vs * delta ->
      velocity (accelerate delta vs) = 0).
Proof.
  intros Ha Hb Hf Hd.
  assert (Hfd : 0 <= friction vs * delta) by (apply Rmult_le_pos; assumption).
  unfold accelerate; rewrite Ha, Hb.
  cbn [velocity set_velocity].
  unfold Rabs; destruct (Rcase_abs (velocity vs)); cmp_cases;
    cbn [velocity set_velocity]; repeat split; intros; lra.
Qed.

Lemma drift_velocity_cases delta vs c :
  velocity (fst (drift delta (vs, c))) = velocity vs
  \/ velocity (fst (drift delta (vs, c))) = velocity vs * driftFriction vs.
Proof.
  destruct (driftActive vs) eqn:Hd.
  - right; apply drift_active_velocity, Hd.
  - left; apply drift_inactive_velocity, Hd.
Qed.

Lemma physicsState_coasting delta vs c :
  accelerating vs = false -> braking vs = false ->
  0 <= friction vs -> 0 <= driftFriction vs <= 1 -> 0 <= delta ->
  inBounds vs ->
  (0 <= velocity vs ->
   0 <= velocity (fst (physicsState delta vs c)) <= velocity vs)
  /\ (velocity vs <= 0 ->
      velocity vs <= velocity (fst (physicsState delta vs c)) <= 0).
Proof.
  intros Ha Hb Hf Hdf Hd [Hv _].
  rewrite physicsState_velocity.
  pose proof (accelerate_coasting delta (steer delta vs) Ha Hb Hf Hd)
    as (Hpos & Hneg & _).
  change (velocity (steer delta vs)) with (velocity vs) in Hpos, Hneg.
  set (v1 := velocity (accelerate delta (steer delta vs))) in *.
  assert (Hset : driftFriction (accelerate delta (steer delta vs))
                 = driftFriction vs).
  { pose proof (accelerate_settings delta (steer delta vs)) as H.
    rewrite steer_settings in H. unfold settings in H.
    inversion H; reflexivity. }
  destruct (drift_velocity_cases delta (accelerate delta (steer delta vs)) c)
    as [He | He]; rewrite He; fold v1; rewrite ?Hset.
  - split; intros H0; [specialize (Hpos H0) | specialize (Hneg H0)];
      rewrite clamp_inside; lra.
  - split; intros H0; [specialize (Hpos H0) | specialize (Hneg H0)];
      rewrite clamp_inside; nra.
Qed.

Section MorePhysics.

Context {host : Host}.

(** X1. With neither the accelerator nor the brake held, a call of
    [updateVehiclePhysics] never speeds the car up and never reverses it:
    the velocity ends between 0 and what it was. *)
Theorem coasting_slows_without_reversing (delta now0 : R) (w : World) :
  let vs := vehicleState w in
  let v' := velocity (vehicleState (updateVehiclePhysics delta now0 w)) in
  accelerating vs = false -> braking vs = false ->
  0 <= friction vs -> 0 <= driftFriction vs <= 1 -> 0 <= delta ->
  inBounds vs ->
  (0 <= velocity vs -> 0 <= v' <= velocity vs)
  /\ (velocity vs <= 0 -> velocity vs <= v' <= 0).
Proof.
  cbv zeta; intros Ha Hb Hf Hdf Hd Hin.
  destruct (updateVehiclePhysics_cases delta now0 w)
    as [Heq _ | c _ _ _ Hv _ | c _ _ _ _ _ Hv _].
  - rewrite Heq; split; intros; lra.
  - rewrite Hv; apply physicsState_coasting; assumption.
  - rewrite Hv; cbn [velocity stopCar]; split; intros; lra.
Qed.

End MorePhysics.

(** ** Blocks of the physics that leave a field alone *)


Lemma accelerate_rotation delta vs :
  rotation (accelerate delta vs) = rotation vs.
Proof.
  unfold accelerate.
  destruct (accelerating vs); [reflexivity|].
  destruct (braking vs); [reflexivity|].
  cbn [velocity set_velocity]; cmp_cases; reflexivity.
Qed.

Lemma accelerate_isDrifting delta vs :
  isDrifting (accelerate delta vs) = isDrifting vs.
Proof.
  unfold accelerate.
  destruct (accelerating vs); [reflexivity|].
  destruct (braking vs); [reflexivity|].
  cbn [velocity set_velocity]; cmp_cases; reflexivity.
Qed.


Lemma drift_rotation delta vs c :
  rotation (fst (drift delta (vs, c))) = rotation vs.
Proof.
  unfold drift; destruct (driftActive vs).
  - destruct (steeringLeft _ || steeringRight _); reflexivity.
  - cbn [fst driftFactor set_driftFactor set_driftAngle set_driftVelocity].
    destruct (_ <? _); reflexivity.
Qed.

Lemma drift_inactive_car delta vs c :
  driftActive vs = false -> snd (drift delta (vs, c)) = c.
Proof.
  intros Hd; unfold drift; rewrite Hd.
  cbn [snd driftFactor set_driftFactor set_driftAngle set_driftVelocity].
  reflexivity.
Qed.

Lemma physicsState_snd delta vs c :
  snd (physicsState delta vs c)
  = snd (drift delta (accelerate delta (steer delta vs), c)).
Proof.
  unfold physicsState.
  destruct (drift delta (accelerate delta (steer delta vs), c)); reflexivity.
Qed.

Lemma physicsStep_snd delta now0 ground vs c :
  snd (physicsStep delta now0 ground vs c)
  = moveCar delta now0 ground (fst (physicsState delta vs c))
            (snd (physicsState delta vs c)).
Proof.
  unfold physicsStep; destruct (physicsState delta vs c); reflexivity.
Qed.


(** ** The steering angle *)






Section Steering.

Context {host : Host}.





End Steering.

(** ** Standing still *)

Lemma accelerate_velocity_steer delta vs :
  velocity (accelerate delta (steer delta vs)) = velocity (accelerate delta vs).
Proof.
  unfold accelerate.
  change (accelerating (steer delta vs)) with (accelerating vs).
  change (braking (steer delta vs)) with (braking vs).
  destruct (accelerating vs); [reflexivity|].
  destruct (braking vs); [reflexivity|].
  cbn [velocity set_velocity steer set_steerAngle friction].
  cmp_cases; reflexivity.
Qed.

Lemma accelerate_at_rest delta vs :
  velocity vs = 0 -> accelerating vs = false -> braking vs = false ->
  accelerate delta vs = vs.
Proof.
  intros Hv Ha Hb; unfold accelerate; rewrite Ha, Hb, Hv.
  cmp_decide; reflexivity.
Qed.

Lemma moveCar_position delta now0 ground vs c :
  x (Car.position (moveCar delta now0 ground vs c))
  = x (Car.position c) + sin (rotation vs) * (velocity vs * delta)
  /\ z (Car.position (moveCar delta now0 ground vs c))
     = z (Car.position c) + cos (rotation vs) * (velocity vs * delta).
Proof. unfold moveCar; destruct (isDrifting vs); split; reflexivity. Qed.

Lemma physicsState_at_rest delta vs c :
  velocity vs = 0 -> accelerating vs = false -> braking vs = false ->
  0 <= maxSpeed vs ->
  velocity (fst (physicsState delta vs c)) = 0
  /\ rotation (fst (physicsState delta vs c)) = rotation vs
  /\ snd (physicsState delta vs c) = c.
Proof.
  intros Hv Ha Hb Hm.
  assert (Hacc : accelerate delta (steer delta vs) = steer delta vs)
    by (apply accelerate_at_rest; assumption).
  assert (Hoff : driftActive (steer delta vs) = false).
  { unfold driftActive.
    change (velocity (steer delta vs)) with (velocity vs).
    rewrite Hv, Rabs_R0. cmp_decide. apply andb_false_r. }
  assert (Hv' : velocity (fst (physicsState delta vs c)) = 0).
  { rewrite physicsState_velocity, Hacc, drift_inactive_velocity by exact Hoff.
    change (velocity (steer delta vs)) with (velocity vs).
    rewrite Hv; apply clamp_inside; lra. }
  split; [exact Hv'|]. split.
  - rewrite physicsState_fst in Hv' |- *.
    rewrite applySteering_velocity in Hv'.
    unfold applySteering; rewrite Hv', Rabs_R0. cmp_decide.
    unfold limitSpeed; cbn [rotation set_velocity].
    rewrite drift_rotation, Hacc; reflexivity.
  - rewrite physicsState_snd, Hacc. apply drift_inactive_car, Hoff.
Qed.

(** ** The way made in one frame *)

Lemma physicsState_handbrake_off_car delta vs c :
  handbrake vs = false -> snd (physicsState delta vs c) = c.
Proof.
  intros Hh; rewrite physicsState_snd; apply drift_inactive_car.
  unfold driftActive.
  rewrite (settings_handbrake (accelerate delta (steer delta vs)) vs).
  - rewrite Hh; reflexivity.
  - rewrite accelerate_settings, steer_settings; reflexivity.
Qed.

Lemma heading_step_length (r a : R) :
  (sin r * a) * (sin r * a) + (cos r * a) * (cos r * a) = a * a.
Proof.
  pose proof (sin2_cos2 r) as H; unfold Rsqr in H.
  replace ((sin r * a) * (sin r * a) + (cos r * a) * (cos r * a))
    with ((sin r * sin r + cos r * cos r) * (a * a)) by ring.
  rewrite H; ring.
Qed.

Lemma physicsStep_way delta now0 ground vs c :
  handbrake vs = false ->
  let c' := snd (physicsStep delta now0 ground vs c) in
  let v' := velocity (fst (physicsState delta vs c)) in
  (x (Car.position c') - x (Car.position c))
  * (x (Car.position c') - x (Car.position c))
  + (z (Car.position c') - z (Car.position c))
    * (z (Car.position c') - z (Car.position c))
  = (v' * delta) * (v' * delta).
Proof.
  intros Hh; cbv zeta.
  rewrite physicsStep_snd, (physicsState_handbrake_off_car delta vs c Hh).
  destruct (moveCar_position delta now0 ground
              (fst (physicsState delta vs c)) c) as [Hx Hz].
  rewrite Hx, Hz.
  generalize (rotation (fst (physicsState delta vs c))) as r.
  generalize (velocity (fst (physicsState delta vs c)) * delta) as a.
  generalize (x (Car.position c)) as cx, (z (Car.position c)) as cz.
  intros cx cz a r.
  rewrite <- (heading_step_length r a); ring.
Qed.

(** ** The drift flag *)

Lemma physicsState_isDrifting delta vs c :
  isDrifting (fst (physicsState delta vs c))
  = isDrifting (fst (drift delta (accelerate delta (steer delta vs), c))).
Proof.
  rewrite physicsState_fst.
  assert (H : forall s, isDrifting (applySteering delta s) = isDrifting s)
    by (intros s; unfold applySteering; cmp_cases; reflexivity).
  rewrite H; reflexivity.
Qed.

Lemma drift_active_isDrifting delta vs c :
  driftActive vs = true -> isDrifting (fst (drift delta (vs, c))) = true.
Proof.
  intros Hd; unfold drift; rewrite Hd.
  destruct (steeringLeft _ || steeringRight _); reflexivity.
Qed.

Lemma drift_inactive_isDrifting delta vs c :
  driftActive vs = false ->
  isDrifting vs = false \/ driftFactor vs - delta * 2 < 0.1 ->
  isDrifting (fst (drift delta (vs, c))) = false.
Proof.
  intros Hd Hor; unfold drift; rewrite Hd.
  cbn [fst driftFactor set_driftFactor set_driftAngle set_driftVelocity].
  destruct (Rmax (driftFactor vs - delta * 2) 0 <? 0.1) eqn:Hc;
    [reflexivity|].
  apply Rltb_false in Hc. cbn [isDrifting set_driftFactor set_driftAngle
                                 set_driftVelocity].
  destruct Hor as [Hf | Hlow]; [exact Hf|].
  exfalso; revert Hc; unfold Rmax; destruct (Rle_dec _ _); lra.
Qed.

Lemma driftActive_after_acceleration delta vs :
  driftActive (accelerate delta (steer delta vs))
  = handbrake vs && (Rabs (velocity (accelerate delta vs)) >? 3).
Proof.
  unfold driftActive; rewrite accelerate_velocity_steer.
  rewrite (settings_handbrake (accelerate delta (steer delta vs)) vs);
    [reflexivity|].
  rewrite accelerate_settings, steer_settings; reflexivity.
Qed.

Section MorePhysics2.

Context {host : Host}.

(** X3. A car that stands still with neither the accelerator nor the brake
    held stays where it is: after [updateVehiclePhysics] the velocity is
    still 0, the heading is the same and the car has not moved on the
    ground, whatever the steering keys and the handbrake do. *)
Theorem car_at_rest_stays_put (delta now0 : R) (w : World) (c : Car.t) :
  let vs := vehicleState w in
  let w' := updateVehiclePhysics delta now0 w in
  car w = Some c ->
  velocity vs = 0 -> accelerating vs = false -> braking vs = false ->
  0 <= maxSpeed vs ->
  velocity (vehicleState w') = 0
  /\ rotation (vehicleState w') = rotation vs
  /\ exists c', car w' = Some c'
       /\ x (Car.position c') = x (Car.position c)
       /\ z (Car.position c') = z (Car.position c).
Proof.
  cbv zeta; intros Hc Hv Ha Hb Hm.
  destruct (updateVehiclePhysics_cases delta now0 w)
    as [Heq _ | c1 Hc1 _ _ Hvs Hcar
        | c1 Hc1 _ _ _ _ Hvs (c' & Hcar & Hpos)].
  - rewrite Heq. repeat split; try assumption. exists c; auto.
  - assert (c1 = c) by congruence; subst c1.
    destruct (physicsState_at_rest delta (vehicleState w) c Hv Ha Hb Hm)
      as (Hv' & Hr' & Hc').
    rewrite Hvs. split; [exact Hv'|]. split; [exact Hr'|].
    eexists; split; [exact Hcar|].
    rewrite physicsStep_snd, Hc'.
    destruct (moveCar_position delta now0 (carGroundLevel (gameState w))
                (fst (physicsState delta (vehicleState w) c)) c) as [Hx Hz].
    rewrite Hx, Hz, Hv'; split; ring.
  - assert (c1 = c) by congruence; subst c1.
    destruct (physicsState_at_rest delta (vehicleState w) c Hv Ha Hb Hm)
      as (Hv' & Hr' & Hc').
    rewrite Hvs. cbn [velocity rotation stopCar].
    split; [reflexivity|]. split; [exact Hr'|].
    exists c'; split; [exact Hcar|].
    rewrite Hpos, physicsStep_snd, Hc'.
    destruct (moveCar_position delta now0 (carGroundLevel (gameState w))
                (fst (physicsState delta (vehicleState w) c)) c) as [Hx Hz].
    rewrite Hx, Hz, Hv'; split; ring.
Qed.

(** X4. With the handbrake released, the way the car makes on the ground
    in one call of [updateVehiclePhysics] is at most [maxSpeed * delta];
    when the race goes on after the call it is exactly the new velocity
    times [delta]. *)
Theorem way_made_in_one_frame (delta now0 : R) (w : World) (c : Car.t) :
  let vs := vehicleState w in
  let w' := updateVehiclePhysics delta now0 w in
  car w = Some c -> handbrake vs = false -> inBounds vs -> 0 <= delta ->
  exists c',
    car w' = Some c'
    /\ let way2 :=
         (x (Car.position c') - x (Car.position c))
         * (x (Car.position c') - x (Car.position c))
         + (z (Car.position c') - z (Car.position c))
           * (z (Car.position c') - z (Car.position c)) in
       way2 <= (maxSpeed vs * delta) * (maxSpeed vs * delta)
       /\ (raceOn (gameState w') = true ->
           way2 = (velocity (vehicleState w') * delta)
                  * (velocity (vehicleState w') * delta)).
Proof.
  cbv zeta; intros Hc Hh Hin Hd.
  pose proof (physicsState_inBounds delta (vehicleState w) c Hd Hin)
    as [Hv' _].
  rewrite (settings_maxSpeed _ _
             (physicsState_settings delta (vehicleState w) c)) in Hv'.
  assert (Hle : forall v, - maxSpeed (vehicleState w) * 0.3 <= v
                          <= maxSpeed (vehicleState w) ->
                (v * delta) * (v * delta)
                <= (maxSpeed (vehicleState w) * delta)
                   * (maxSpeed (vehicleState w) * delta)).
  { intros v Hv.
    assert (v * v <= maxSpeed (vehicleState w) * maxSpeed (vehicleState w))
      by nra.
    assert (0 <= delta * delta) by nra.
    nra. }
  destruct (updateVehiclePhysics_cases delta now0 w)
    as [Heq [Hn | Hnot] | c1 Hc1 _ _ Hvs Hcar
        | c1 Hc1 _ _ Hoff _ Hvs (c' & Hcar & Hpos)].
  - congruence.
  - rewrite Heq. exists c; split; [exact Hc|].
    replace (x (Car.position c) - x (Car.position c)) with 0 by ring.
    replace (z (Car.position c) - z (Car.position c)) with 0 by ring.
    split.
    + specialize (Hle 0). nra.
    + intros Hon'; congruence.
  - assert (c1 = c) by congruence; subst c1.
    eexists; split; [exact Hcar|].
    rewrite (physicsStep_way delta now0 _ (vehicleState w) c Hh).
    split; [apply Hle, Hv'|].
    intros _; rewrite Hvs; reflexivity.
  - assert (c1 = c) by congruence; subst c1.
    exists c'; split; [exact Hcar|].
    rewrite Hpos, (physicsStep_way delta now0 _ (vehicleState w) c Hh).
    split; [apply Hle, Hv'|].
    intros Hon'; congruence.
Qed.

(** X5. The drift flag follows the handbrake and the speed after the
    acceleration block: with the handbrake held and that speed above 3 the
    car is drifting after the call; with the handbrake released or that
    speed at most 3, a car that was not drifting is not drifting after the
    call, and a drifting car stops drifting as soon as [driftFactor] minus
    [2 * delta] is below 0.1. *)
Theorem drift_flag_gate (delta now0 : R) (w : World) (c : Car.t) :
  let vs := vehicleState w in
  let w' := updateVehiclePhysics delta now0 w in
  car w = Some c -> raceOn (gameState w) = true ->
  (handbrake vs = true -> 3 < Rabs (velocity (accelerate delta vs)) ->
   isDrifting (vehicleState w') = true)
  /\ (handbrake vs = false \/ Rabs (velocity (accelerate delta vs)) <= 3 ->
      isDrifting vs = false \/ driftFactor vs - delta * 2 < 0.1 ->
      isDrifting (vehicleState w') = false).
Proof.
  cbv zeta; intros Hc Hon.
  assert (Hw : isDrifting (vehicleState (updateVehiclePhysics delta now0 w))
               = isDrifting (fst (physicsState delta (vehicleState w) c))).
  { destruct (updateVehiclePhysics_cases delta now0 w)
      as [_ [Hn | Hoff] | c1 Hc1 _ _ Hvs _ | c1 Hc1 _ _ _ _ Hvs _];
      try congruence;
      assert (c1 = c) by congruence; subst c1; rewrite Hvs; reflexivity. }
  rewrite Hw, physicsState_isDrifting.
  pose proof (driftActive_after_acceleration delta (vehicleState w)) as Hact.
  split.
  - intros Hh Hfast; apply drift_active_isDrifting.
    rewrite Hact, Hh. apply Rltb_true in Hfast; rewrite Hfast; reflexivity.
  - intros Hoff Hor; apply drift_inactive_isDrifting.
    + rewrite Hact. destruct Hoff as [Hh | Hslow].
      * rewrite Hh; reflexivity.
      * apply andb_false_iff; right; apply Rltb_false; exact Hslow.
    + rewrite accelerate_isDrifting, accelerate_driftFactor.
      exact Hor.
Qed.

End MorePhysics2.

(** ** The boxes of the collision check *)

Ltac box_simpl :=
  unfold reducedCarBox, obstacleBB, trunkSize, Box.intersectsBox,
    Box.setFromCenterAndSize, Box.getCenter, Box.getSize,
    Vec.sub, Vec.add, Vec.multiplyScalar, Vec.setX, Vec.setY, Vec.setZ;
  cbn [x y z min max].

Lemma isEmpty_false (b : Box3) :
  Box.isEmpty b = false
  <-> x (min b) <= x (max b) /\ y (min b) <= y (max b)
      /\ z (min b) <= z (max b).
Proof.
  unfold Box.isEmpty. rewrite !orb_false_iff, !Rltb_false. tauto.
Qed.

Lemma intersectsBox_true (a b : Box3) :
  Box.intersectsBox a b = true
  <-> (x (min a) <= x (max b) /\ x (min b) <= x (max a))
      /\ (y (min a) <= y (max b) /\ y (min b) <= y (max a))
      /\ (z (min a) <= z (max b) /\ z (min b) <= z (max a)).
Proof.
  unfold Box.intersectsBox. rewrite !andb_true_iff, !Rleb_true. tauto.
Qed.

(** X6. The reduced box of a car box that is not empty has the same centre,
    three quarters of the size on each axis, and lies within the car box; so
    every box that the reduced box meets is met by the car box as well: the
    reduction takes collisions away and adds none. *)
Theorem reduced_box_within_car_box (carBB : Box3) :
  Box.isEmpty carBB = false ->
  Box.getCenter (reducedCarBox carBB) = Box.getCenter carBB
  /\ Box.getSize (reducedCarBox carBB)
     = Vec.multiplyScalar (Box.getSize carBB) 0.75
  /\ boxWithin (reducedCarBox carBB) carBB
  /\ (forall other,
         Box.intersectsBox (reducedCarBox carBB) other = true ->
         Box.intersectsBox carBB other = true).
Proof.
  intros Hne. pose proof (proj1 (isEmpty_false carBB) Hne) as (Hx & Hy & Hz).
  assert (Hr : reducedCarBox carBB
               = mkBox3
                   (mkVector3
                      ((x (min carBB) + x (max carBB)) * 0.5
                       - (x (max carBB) - x (min carBB)) * 0.75 * 0.5)
                      ((y (min carBB) + y (max carBB)) * 0.5
                       - (y (max carBB) - y (min carBB)) * 0.75 * 0.5)
                      ((z (min carBB) + z (max carBB)) * 0.5
                       - (z (max carBB) - z (min carBB)) * 0.75 * 0.5))
                   (mkVector3
                      ((x (min carBB) + x (max carBB)) * 0.5
                       + (x (max carBB) - x (min carBB)) * 0.75 * 0.5)
                      ((y (min carBB) + y (max carBB)) * 0.5
                       + (y (max carBB) - y (min carBB)) * 0.75 * 0.5)
                      ((z (min carBB) + z (max carBB)) * 0.5
                       + (z (max carBB) - z (min carBB)) * 0.75 * 0.5))).
  { unfold reducedCarBox, Box.getCenter, Box.getSize; rewrite Hne.
    reflexivity. }
  assert (Hne' : Box.isEmpty (reducedCarBox carBB) = false).
  { rewrite Hr; apply isEmpty_false; cbn [x y z min max]; lra. }
  split; [|split; [|split]].
  - unfold Box.getCenter at 1 2; rewrite Hne', Hne, Hr.
    unfold Vec.multiplyScalar, Vec.add; cbn [x y z min max].
    f_equal; lra.
  - unfold Box.getSize at 1 2; rewrite Hne', Hne, Hr.
    unfold Vec.multiplyScalar, Vec.sub; cbn [x y z min max].
    f_equal; lra.
  - unfold boxWithin; rewrite Hr; cbn [x y z min max]. lra.
  - intros other Hi; apply intersectsBox_true.
    apply intersectsBox_true in Hi; rewrite Hr in Hi; cbn [x y z min max] in Hi.
    lra.
Qed.

(** X7. An empty car box (what [setFromObject] leaves for an object without
    geometry) is not skipped: its reduced box is the single point at the
    origin, and an obstacle standing at the origin is hit. *)
Theorem empty_car_box_is_the_origin (carBB : Box3) (height : R) :
  Box.isEmpty carBB = true ->
  min (reducedCarBox carBB) = mkVector3 0 0 0
  /\ max (reducedCarBox carBB) = mkVector3 0 0 0
  /\ Box.intersectsBox (reducedCarBox carBB)
       (obstacleBB (mkVector3 0 height 0)) = true.
Proof.
  intros He.
  assert (Hr : reducedCarBox carBB
               = mkBox3 (mkVector3 (0 - 0 * 0.75 * 0.5) (0 - 0 * 0.75 * 0.5)
                                   (0 - 0 * 0.75 * 0.5))
                        (mkVector3 (0 + 0 * 0.75 * 0.5) (0 + 0 * 0.75 * 0.5)
                                   (0 + 0 * 0.75 * 0.5))).
  { unfold reducedCarBox, Box.getCenter, Box.getSize; rewrite He.
    reflexivity. }
  rewrite Hr; cbn [min max]. split; [f_equal; lra|]. split; [f_equal; lra|].
  apply intersectsBox_true. box_simpl. lra.
Qed.

(** X8. The collision box of an obstacle is the region within 0.6 of its
    position along [x] and [z] and between the heights -1 and 3, whatever the
    height of the obstacle itself: a box meets it exactly when it reaches
    into that region on all three axes. *)
Theorem trunk_collision_region (carBB : Box3) (obstacle : Vector3) :
  Box.intersectsBox carBB (obstacleBB obstacle) = true
  <-> (x (min carBB) <= x obstacle + 0.6
       /\ x obstacle - 0.6 <= x (max carBB))
      /\ (y (min carBB) <= 3 /\ -1 <= y (max carBB))
      /\ (z (min carBB) <= z obstacle + 0.6
          /\ z obstacle - 0.6 <= z (max carBB)).
Proof.
  rewrite intersectsBox_true. box_simpl. lra.
Qed.

(** ** The store, the race time and the end of the race *)

Section AfterTheRace.

Context {host : Host}.

Lemma updateCarCamera_others delta w :
  storedBestTime (updateCarCamera delta w) = storedBestTime w
  /\ ui (updateCarCamera delta w) = ui w
  /\ explosions (updateCarCamera delta w) = explosions w
  /\ obstacles (updateCarCamera delta w) = obstacles w.
Proof.
  unfold updateCarCamera; destruct (car w); [|repeat split].
  destruct (delta >? 0); repeat split.
Qed.

Lemma gameOver_raceTime won reason w :
  raceTime (gameState (gameOver won reason w)) = raceTime (gameState w).
Proof.
  unfold gameOver; destruct won; cbn; [|reflexivity].
  destruct (improvesBest _ _); reflexivity.
Qed.

Lemma gameOver_lost_keeps_best reason w :
  storedBestTime (gameOver false reason w) = storedBestTime w
  /\ bestTime (gameState (gameOver false reason w)) = bestTime (gameState w)
  /\ recordTime (ui (gameOver false reason w)) = recordTime (ui w).
Proof. unfold gameOver; cbn; repeat split. Qed.

Lemma checkCollisions_best w :
  (storedBestTime (checkCollisions w) = storedBestTime w
   /\ bestTime (gameState (checkCollisions w)) = bestTime (gameState w)
   /\ recordTime (ui (checkCollisions w)) = recordTime (ui w))
  \/ (isPlaying (gameState w) = true
      /\ hasWon (gameState (checkCollisions w)) = true).
Proof.
  unfold checkCollisions.
  destruct (car w) as [c|]; [|left; repeat split].
  destruct (carBoundingBox w); [|left; repeat split].
  destruct (isPlaying (gameState w)) eqn:Hp; cbn [negb];
    [|left; repeat split].
  destruct (verdict _ _ _ _).
  - left; repeat split.
  - left. match goal with |- context [gameOver false ?r ?w'] =>
            destruct (gameOver_lost_keeps_best r w') as (H1 & H2 & H3) end.
    rewrite H1, H2, H3; repeat split.
  - right; split; [reflexivity|].
    match goal with |- context [gameOver ?a ?b ?w'] =>
      destruct (gameOver_flags a b w') as (_ & Hw & _) end.
    exact Hw.
  - left. match goal with |- context [gameOver false ?r ?w'] =>
            destruct (gameOver_lost_keeps_best r w') as (H1 & H2 & H3) end.
    rewrite H1, H2, H3; repeat split.
Qed.

Lemma checkCollisions_raceTime w :
  raceTime (gameState (checkCollisions w)) = raceTime (gameState w).
Proof.
  unfold checkCollisions.
  destruct (car w) as [c|]; [|reflexivity].
  destruct (carBoundingBox w); [|reflexivity].
  destruct (isPlaying (gameState w)); cbn [negb]; [|reflexivity].
  destruct (verdict _ _ _ _); try reflexivity;
    rewrite gameOver_raceTime; reflexivity.
Qed.

(** [updateVehiclePhysics] as the physics, the check and the camera in a
    row. *)
Lemma updateVehiclePhysics_runs delta now0 w c :
  car w = Some c -> raceOn (gameState w) = true ->
  let st := physicsStep delta now0 (carGroundLevel (gameState w))
                        (vehicleState w) c in
  let w1 := set_car (Some (snd st)) (set_vehicleState (fst st) w) in
  updateVehiclePhysics delta now0 w
  = updateCarCamera delta
      (if negb (freeRoam (gameState w)) then checkCollisions w1 else w1).
Proof.
  intros Hc Hon; cbv zeta; unfold updateVehiclePhysics; rewrite Hc.
  unfold raceOn in Hon.
  destruct (isPlaying (gameState w)) eqn:Hp;
    destruct (freeRoam (gameState w)) eqn:Hf;
    try discriminate; cbn [negb andb];
    destruct (physicsStep _ _ _ _ _);
    cbn [gameState set_car set_vehicleState fst snd]; rewrite Hf;
    reflexivity.
Qed.

Lemma updateVehiclePhysics_skips delta now0 w :
  car w = None \/ raceOn (gameState w) = false ->
  updateVehiclePhysics delta now0 w = w.
Proof.
  intros H; unfold updateVehiclePhysics.
  destruct (car w); [|reflexivity].
  destruct H as [H | H]; [discriminate|].
  unfold raceOn in H; apply orb_false_iff in H; destruct H as [Hp Hf].
  rewrite Hp, Hf; reflexivity.
Qed.

Lemma update_cases_dec w :
  (exists c, car w = Some c /\ raceOn (gameState w) = true)
  \/ (car w = None \/ raceOn (gameState w) = false).
Proof.
  destruct (car w) as [c|]; [|right; left; reflexivity].
  destruct (raceOn (gameState w)); [left; exists c; auto | right; right; auto].
Qed.

Lemma update_raceTime delta now0 w :
  raceTime (gameState (updateVehiclePhysics delta now0 w))
  = raceTime (gameState w).
Proof.
  destruct (update_cases_dec w) as [(c & Hc & Hon) | Hskip].
  - rewrite (updateVehiclePhysics_runs delta now0 w c Hc Hon); cbv zeta.
    rewrite updateCarCamera_gameState.
    destruct (negb (freeRoam (gameState w)));
      [rewrite checkCollisions_raceTime|]; reflexivity.
  - rewrite updateVehiclePhysics_skips by exact Hskip; reflexivity.
Qed.

(** X9. The best time is touched only by a win: when a call of
    [updateVehiclePhysics] changes the stored best time, the best time of
    the game state or the time on the record display, the race was on and
    the call has won it; a crash and leaving the track leave all three as
    they are. *)
Theorem best_time_changes_only_on_a_win (delta now0 : R) (w : World) :
  let w' := updateVehiclePhysics delta now0 w in
  (storedBestTime w' = storedBestTime w
   /\ bestTime (gameState w') = bestTime (gameState w)
   /\ recordTime (ui w') = recordTime (ui w))
  \/ (isPlaying (gameState w) = true /\ hasWon (gameState w') = true).
Proof.
  cbv zeta.
  destruct (update_cases_dec w) as [(c & Hc & Hon) | Hskip].
  - rewrite (updateVehiclePhysics_runs delta now0 w c Hc Hon); cbv zeta.
    destruct (updateCarCamera_others delta
                (if negb (freeRoam (gameState w))
                 then checkCollisions
                        (set_car
                           (Some (snd (physicsStep delta now0
                                         (carGroundLevel (gameState w))
                                         (vehicleState w) c)))
                           (set_vehicleState
                              (fst (physicsStep delta now0
                                      (carGroundLevel (gameState w))
                                      (vehicleState w) c)) w))
                 else
                   set_car
                     (Some (snd (physicsStep delta now0
                                   (carGroundLevel (gameState w))
                                   (vehicleState w) c)))
                     (set_vehicleState
                        (fst (physicsStep delta now0
                                (carGroundLevel (gameState w))
                                (vehicleState w) c)) w)))
      as (Hs & Hu & _ & _).
    rewrite Hs, Hu, updateCarCamera_gameState.
    destruct (negb (freeRoam (gameState w))); [|left; repeat split].
    match goal with |- context [checkCollisions ?w1] =>
      destruct (checkCollisions_best w1) as [H | [Hp Hw]] end.
    + left; exact H.
    + right; split; [exact Hp | exact Hw].
  - rewrite updateVehiclePhysics_skips by exact Hskip. left; repeat split.
Qed.

Lemma set_controls_twice i1 i2 vs :
  set_controls i2 (set_controls i1 vs) = set_controls i2 vs.
Proof. reflexivity. Qed.



Lemma frame_raceTime f w :
  raceTime (gameState (frame f w))
  = raceTime (gameState w)
    + (if isPlaying (gameState w) then Rmin (elapsed f) 0.1 else 0).
Proof.
  unfold frame, animate. rewrite update_raceTime.
  cbn [gameState set_vehicleState].
  destruct (isPlaying (gameState w)); cbn; lra.
Qed.

(** X11. The race time only moves forward, and by at most 0.1 s in a frame
    however long the frame took: after any frames it is at least what it was
    and at most that plus 0.1 s for each frame; a frame during which the race
    is on adds exactly the smaller of its duration and 0.1 s. *)
Theorem race_time_advances_by_clamped_frames (w : World) :
  (forall f,
      isPlaying (gameState w) = true ->
      raceTime (gameState (frame f w))
      = raceTime (gameState w) + Rmin (elapsed f) 0.1)
  /\ (forall frames,
         Forall (fun f => 0 <= elapsed f) frames ->
         raceTime (gameState w) <= raceTime (gameState (run frames w))
         <= raceTime (gameState w) + 0.1 * INR (List.length frames)).
Proof.
  split.
  - intros f Hp; rewrite frame_raceTime, Hp; reflexivity.
  - intros frames; revert w.
    induction frames as [|f rest IH]; intros w Hall.
    + cbn [run List.length INR]. lra.
    + inversion Hall as [|? ? Hf Hrest]; subst.
      specialize (IH (frame f w) Hrest).
      rewrite frame_raceTime in IH.
      change (run (f :: rest) w) with (run rest (frame f w)).
      change (List.length (f :: rest)) with (S (List.length rest)).
      rewrite S_INR.
      assert (Hstep : 0 <= (if isPlaying (gameState w)
                            then Rmin (elapsed f) 0.1 else 0) <= 0.1).
      { destruct (isPlaying (gameState w)); [|lra].
        unfold Rmin; destruct (Rle_dec _ _); lra. }
      lra.
Qed.

End AfterTheRace.

(** ** Free roam, the countdown and the keys *)

Section Modes.

Context {host : Host}.

Lemma update_free_roam delta now0 w :
  freeRoam (gameState w) = true ->
  gameState (updateVehiclePhysics delta now0 w) = gameState w
  /\ storedBestTime (updateVehiclePhysics delta now0 w) = storedBestTime w
  /\ ui (updateVehiclePhysics delta now0 w) = ui w
  /\ explosions (updateVehiclePhysics delta now0 w) = explosions w.
Proof.
  intros Hf.
  destruct (update_cases_dec w) as [(c & Hc & Hon) | Hskip].
  - rewrite (updateVehiclePhysics_runs delta now0 w c Hc Hon); cbv zeta.
    rewrite Hf; cbn [negb].
    rewrite updateCarCamera_gameState.
    match goal with |- context [updateCarCamera delta ?w1] =>
      destruct (updateCarCamera_others delta w1) as (Hs & Hu & He & _) end.
    rewrite Hs, Hu, He; repeat split.
  - rewrite updateVehiclePhysics_skips by exact Hskip; repeat split.
Qed.

Lemma frame_free_roam f w :
  isPlaying (gameState w) = false -> freeRoam (gameState w) = true ->
  gameState (frame f w) = gameState w
  /\ storedBestTime (frame f w) = storedBestTime w
  /\ ui (frame f w) = ui w
  /\ explosions (frame f w) = explosions w.
Proof.
  intros Hp Hf; unfold frame, animate.
  cbn [gameState set_vehicleState]; rewrite Hp.
  apply (update_free_roam _ _
           (set_vehicleState (set_controls (input f) (vehicleState w)) w)).
  exact Hf.
Qed.

Lemma run_free_roam frames w :
  isPlaying (gameState w) = false -> freeRoam (gameState w) = true ->
  gameState (run frames w) = gameState w
  /\ storedBestTime (run frames w) = storedBestTime w
  /\ ui (run frames w) = ui w
  /\ explosions (run frames w) = explosions w.
Proof.
  revert w; induction frames as [|f rest IH]; intros w Hp Hf; cbn [run].
  - repeat split.
  - destruct (frame_free_roam f w Hp Hf) as (Hg & Hs & Hu & He).
    destruct (IH (frame f w)) as (Hg' & Hs' & Hu' & He').
    + rewrite Hg; exact Hp.
    + rewrite Hg; exact Hf.
    + rewrite Hg', Hs', Hu', He', Hg, Hs, Hu, He; repeat split.
Qed.

(** X12. Free roam never ends by itself: after [enableFreeRoam], whatever
    frames follow and wherever the car drives, the game state stays the one
    [enableFreeRoam] has left (free roam on, race off, race time standing),
    no explosion is created, and the store and the page elements of the
    world stay as they are. *)
Theorem free_roam_never_ends (p : Page) (frames : list Frame) :
  let w0 := world (enableFreeRoam p) in
  let w := run frames w0 in
  gameState w = roamingFreely (gameState (world p))
  /\ freeRoam (gameState w) = true
  /\ isPlaying (gameState w) = false
  /\ raceTime (gameState w) = raceTime (gameState (world p))
  /\ storedBestTime w = storedBestTime (world p)
  /\ explosions w = explosions (world p)
  /\ ui w = ui w0.
Proof.
  cbv zeta.
  destruct (run_free_roam frames (world (enableFreeRoam p)))
    as (Hg & Hs & Hu & He); [reflexivity | reflexivity |].
  rewrite Hg, Hs, Hu, He. repeat split.
Qed.

Lemma resetCar_gameState w : gameState (resetCar w) = gameState w.
Proof.
  unfold resetCar; destruct (car w); [|reflexivity].
  rewrite updateCarCamera_gameState; reflexivity.
Qed.

Lemma resetCar_loaded w c :
  car w = Some c ->
  car (resetCar w)
  = Some (Car.mk (mkVector3 0 (carGroundLevel (gameState w)) 0)
                 (mkVector3 0 (- PI / 2) 0) true)
  /\ vehicleState (resetCar w) = resetVehicle (vehicleState w)
  /\ explosions (resetCar w) = [].
Proof.
  intros Hc; unfold resetCar; rewrite Hc.
  rewrite updateCarCamera_car, updateCarCamera_vehicleState.
  match goal with |- context [updateCarCamera 0 ?w1] =>
    destruct (updateCarCamera_others 0 w1) as (_ & _ & He & _) end.
  rewrite He; repeat split.
Qed.

Lemma startCountdown_world p :
  world (startCountdown p)
  = set_gameState (set_countingDown true 3 (gameState (resetCar (world p))))
                  (resetCar (world p)).
Proof.
  unfold startCountdown, show_mobileControls.
  destruct (mobileControls p); reflexivity.
Qed.

Lemma startCountdown_timers p :
  timers (startCountdown p) = timers p ++ [CountInterval].
Proof. reflexivity. Qed.

Lemma countInterval_tick p n :
  countdown (gameState (world p)) = S n ->
  countInterval p
  = set_world
      (set_gameState (set_countdown n (gameState (world p))) (world p))
      (set_countdownText (Number (S n)) p).
Proof.
  intros Hn; unfold countInterval; rewrite Hn.
  cbn [Nat.ltb Nat.leb Nat.sub]. rewrite Nat.sub_0_r. reflexivity.
Qed.

Lemma countInterval_go p :
  countdown (gameState (world p)) = O ->
  countInterval p
  = set_timers (clearTimer CountInterval (timers p ++ [RaceTimeout]))
               (set_countdownText Go p).
Proof. intros Hn; unfold countInterval; rewrite Hn; reflexivity. Qed.

(** The page one, two and three ticks after the start of the countdown. *)
Lemma countdown_three_ticks p :
  let p0 := startCountdown p in
  countInterval p0 = ticked 2 3 p0
  /\ countInterval (ticked 2 3 p0) = ticked 1 2 p0
  /\ countInterval (ticked 1 2 p0) = ticked 0 1 p0.
Proof.
  cbv zeta.
  assert (H3 : countdown (gameState (world (startCountdown p))) = 3%nat)
    by (rewrite startCountdown_world; reflexivity).
  split; [|split].
  - apply (countInterval_tick _ 2 H3).
  - rewrite (countInterval_tick (ticked 2 3 (startCountdown p)) 1 eq_refl).
    reflexivity.
  - rewrite (countInterval_tick (ticked 1 2 (startCountdown p)) 0 eq_refl).
    reflexivity.
Qed.

(** X13. A countdown takes four ticks of its interval: after
    [startCountdown] the element shows 3, 2 and 1 and, on the fourth tick,
    GO; through these ticks the game counts down and the race flag is what it
    was; the fourth tick ends the interval and leaves the timeout that
    starts the race, after which the race is on at time 0 with nothing won
    or lost and free roam off, and a loaded car stands on the start line,
    at rest, heading down the track. *)
Theorem countdown_takes_four_ticks (p : Page) :
  let p0 := startCountdown p in
  let p4 := countIntervals 4 p0 in
  let p5 := raceTimeout p4 in
  countdownTexts 4 p0 = [Number 3; Number 2; Number 1; Go]
  /\ (forall k, (k <= 4)%nat ->
        isCountingDown (gameState (world (countIntervals k p0))) = true
        /\ isPlaying (gameState (world (countIntervals k p0)))
           = isPlaying (gameState (world p)))
  /\ timers p4 = clearTimer CountInterval
                   (timers p ++ [CountInterval; RaceTimeout])
  /\ (isPlaying (gameState (world p5)) = true
      /\ isCountingDown (gameState (world p5)) = false
      /\ freeRoam (gameState (world p5)) = false
      /\ raceTime (gameState (world p5)) = 0
      /\ hasWon (gameState (world p5)) = false
      /\ hasLost (gameState (world p5)) = false
      /\ countdownShown p5 = false)
  /\ (forall c,
         car (world p) = Some c ->
         car (world p5)
         = Some (Car.mk
                   (mkVector3 0 (carGroundLevel (gameState (world p))) 0)
                   (mkVector3 0 (- PI / 2) 0) true)
         /\ velocity (vehicleState (world p5)) = 0
         /\ rotation (vehicleState (world p5)) = PI).
Proof.
  cbv zeta.
  destruct (countdown_three_ticks p) as (T1 & T2 & T3); cbv zeta in T1, T2, T3.
  set (p0 := startCountdown p) in *.
  assert (H1 : countIntervals 1 p0 = ticked 2 3 p0)
    by (cbn [countIntervals]; exact T1).
  assert (H2 : countIntervals 2 p0 = ticked 1 2 p0)
    by (cbn [countIntervals]; rewrite T1; exact T2).
  assert (H3 : countIntervals 3 p0 = ticked 0 1 p0)
    by (cbn [countIntervals]; rewrite T1, T2; exact T3).
  assert (Hgo : countInterval (ticked 0 1 p0)
                = set_timers
                    (clearTimer CountInterval
                       (timers (ticked 0 1 p0) ++ [RaceTimeout]))
                    (set_countdownText Go (ticked 0 1 p0)))
    by (apply countInterval_go; reflexivity).
  assert (H4 : countIntervals 4 p0
               = set_timers
                   (clearTimer CountInterval
                      (timers (ticked 0 1 p0) ++ [RaceTimeout]))
                   (set_countdownText Go (ticked 0 1 p0)))
    by (cbn [countIntervals]; rewrite T1, T2, T3; exact Hgo).
  assert (Hw : world p0
               = set_gameState
                   (set_countingDown true 3 (gameState (world p)))
                   (resetCar (world p))).
  { unfold p0; rewrite startCountdown_world, resetCar_gameState.
    reflexivity. }
  split; [|split; [|split; [|split]]].
  - cbn [countdownTexts]. rewrite T1, T2, T3, Hgo. reflexivity.
  - intros k Hk.
    assert (Hcases : k = 0%nat \/ k = 1%nat \/ k = 2%nat \/ k = 3%nat
                     \/ k = 4%nat) by lia.
    destruct Hcases as [-> | [-> | [-> | [-> | ->]]]].
    + cbn [countIntervals]; rewrite Hw; split; reflexivity.
    + rewrite H1; unfold ticked; cbn [world set_world]; rewrite Hw;
        split; reflexivity.
    + rewrite H2; unfold ticked; cbn [world set_world]; rewrite Hw;
        split; reflexivity.
    + rewrite H3; unfold ticked; cbn [world set_world]; rewrite Hw;
        split; reflexivity.
    + rewrite H4; unfold ticked;
        cbn [world set_world set_timers set_countdownText];
        rewrite Hw; split; reflexivity.
  - rewrite H4. unfold ticked.
    cbn [timers set_timers set_world set_countdownText].
    unfold p0; rewrite startCountdown_timers, <- app_assoc; reflexivity.
  - rewrite H4.
    unfold raceTimeout, startRace, show_mobileControls, ticked.
    destruct (mobileControls _); cbn; repeat split.
  - intros c Hc.
    destruct (resetCar_loaded (world p) c Hc) as (Hcar & Hvs & _).
    rewrite H4.
    unfold raceTimeout, startRace, show_mobileControls, ticked.
    destruct (mobileControls _);
      cbn [world set_world set_timers set_countdownText set_countdownShown
           car vehicleState set_gameState set_ui];
      rewrite Hw; cbn [car vehicleState set_gameState];
      rewrite Hcar, Hvs; repeat split.
Qed.

Lemma keyControl_r : keyControl "r" = None.
Proof. reflexivity. Qed.

(** X14. The key R restarts the race only from rest: with the race not on
    and no countdown running, it leaves free roam, hides the message, takes
    one free-roam notice off the page and starts the countdown; while the
    race is on or a countdown runs, it changes nothing in the world. Upper
    and lower case act alike. *)
Theorem restart_key_only_when_idle (key : string) (p : Page) :
  toLowerCase key = "r"%string ->
  (isPlaying (gameState (world p)) = false ->
   isCountingDown (gameState (world p)) = false ->
   onKeyDown key p
   = startCountdown
       (set_world
          (set_ui (set_messageShown false (ui (world p)))
             (set_gameState (set_freeRoam false (gameState (world p)))
                (world p)))
          (set_freeRoamMessages (Nat.pred (freeRoamMessages p))
             (set_key key true p)))
   /\ isCountingDown (gameState (world (onKeyDown key p))) = true
   /\ freeRoam (gameState (world (onKeyDown key p))) = false
   /\ timers (onKeyDown key p) = timers p ++ [CountInterval])
  /\ (isPlaying (gameState (world p)) = true
      \/ isCountingDown (gameState (world p)) = true ->
      world (onKeyDown key p) = world p /\ timers (onKeyDown key p) = timers p).
Proof.
  intros Hr; split.
  - intros Hp Hc.
    assert (Heq : onKeyDown key p
                  = startCountdown
                      (set_world
                         (set_ui (set_messageShown false (ui (world p)))
                            (set_gameState
                               (set_freeRoam false (gameState (world p)))
                               (world p)))
                         (set_freeRoamMessages (Nat.pred (freeRoamMessages p))
                            (set_key key true p)))).
    { destruct p as [w ct cs mc n ks ts]; cbn [world] in Hp, Hc.
      unfold onKeyDown, restarts.
      cbn [world set_key]; rewrite Hr, Hp, Hc.
      cbn [String.eqb Ascii.eqb Bool.eqb negb andb freeRoamMessages].
      destruct n as [|n]; cbn [Nat.ltb Nat.leb Nat.pred].
      - reflexivity.
      - cbn [freeRoamMessages set_freeRoamMessages Nat.sub world set_world
             set_key].
        rewrite ?Nat.sub_0_r. reflexivity. }
    rewrite Heq. split; [reflexivity|].
    rewrite startCountdown_world, resetCar_gameState.
    repeat split.
  - intros Hbusy.
    assert (Hno : restarts key p = false).
    { unfold restarts. destruct Hbusy as [H | H]; rewrite H;
        cbn [negb]; rewrite ?andb_false_r; reflexivity. }
    unfold onKeyDown.
    assert (Hno' : restarts key (set_key key true p) = false) by exact Hno.
    rewrite Hno', Hr, keyControl_r.
    destruct (negb _ && negb _); split; reflexivity.
Qed.


Lemma set_control_flags c b vs :
  control_flag c (set_control c b vs) = b
  /\ (forall c', c' <> c ->
        control_flag c' (set_control c b vs) = control_flag c' vs)
  /\ velocity (set_control c b vs) = velocity vs
  /\ rotation (set_control c b vs) = rotation vs
  /\ steerAngle (set_control c b vs) = steerAngle vs.
Proof.
  split; [destruct c; reflexivity|]. split; [|repeat split].
  intros c' Hne; destruct c, c'; try reflexivity; congruence.
Qed.

(** X16. Releasing a control always takes its flag down: after [onKeyUp]
    of a key, or [handleTouchEnd] of a button, that stands for a control, the
    flag of that control is off in every state of the game, race on or not;
    the other four flags and the motion of the car are as before. *)
Theorem release_clears_the_flag (p : Page) (c : Control) :
  (forall key,
      keyControl (toLowerCase key) = Some c ->
      let vs' := vehicleState (world (onKeyUp key p)) in
      control_flag c vs' = false
      /\ (forall c', c' <> c ->
            control_flag c' vs' = control_flag c' (vehicleState (world p)))
      /\ velocity vs' = velocity (vehicleState (world p)))
  /\ (forall action,
         actionControl action = Some c ->
         let vs' := vehicleState (handleTouchEnd action (world p)) in
         control_flag c vs' = false
         /\ (forall c', c' <> c ->
               control_flag c' vs' = control_flag c' (vehicleState (world p)))
         /\ velocity vs' = velocity (vehicleState (world p))).
Proof.
  split.
  - intros key Hk; cbv zeta. unfold onKeyUp.
    cbn [world set_key]; rewrite Hk. cbn [world set_world vehicleState
                                            set_vehicleState].
    destruct (set_control_flags c false (vehicleState (world p)))
      as (H1 & H2 & H3 & _).
    auto.
  - intros action Ha; cbv zeta. unfold handleTouchEnd; rewrite Ha.
    cbn [vehicleState set_vehicleState].
    destruct (set_control_flags c false (vehicleState (world p)))
      as (H1 & H2 & H3 & _).
    auto.
Qed.

End Modes.

(** ** The explosion particles *)

Lemma moveParticle_life delta p :
  Particle.life (moveParticle delta p) = Particle.life p - Particle.decay p
  /\ Particle.decay (moveParticle delta p) = Particle.decay p.
Proof. split; reflexivity. Qed.

(** X17. After [updateExplosionParticles] every particle left has a
    positive life, its scale on all three axes and its opacity are that
    life, and its material is transparent; no particle is added, and the
    ones left are in the order they were in. *)
Theorem surviving_particles_are_alive (delta : R) (ps : list Particle.t) :
  let ps' := updateExplosionParticles delta ps in
  Forall (fun p =>
            0 < Particle.life p
            /\ Particle.scale p
               = mkVector3 (Particle.life p) (Particle.life p)
                           (Particle.life p)
            /\ Particle.opacity p = Particle.life p
            /\ Particle.transparent p = true) ps'
  /\ (List.length ps' <= List.length ps)%nat
  /\ ps' = filter (fun p => negb (Particle.life p <=? 0))
                  (map (moveParticle delta) ps).
Proof.
  cbv zeta; induction ps as [|p rest (IHa & IHl & IHf)];
    cbn [updateExplosionParticles map filter List.length].
  - split; [constructor | split; [lia | reflexivity]].
  - destruct (Particle.life (moveParticle delta p) <=? 0) eqn:Hdead;
      cbn [negb].
    + split; [exact IHa | split; [lia | exact IHf]].
    + apply Rleb_false in Hdead.
      split; [|split; [cbn [List.length]; lia | rewrite IHf; reflexivity]].
      constructor; [|exact IHa].
      split; [exact Hdead|]. repeat split.
Qed.

Lemma updateExplosionParticles_ages delta ps d l :
  Forall (fun p => d <= Particle.decay p /\ Particle.life p <= l) ps ->
  Forall (fun p => d <= Particle.decay p /\ Particle.life p <= l - d)
         (updateExplosionParticles delta ps).
Proof.
  induction ps as [|p rest IH]; intros Hall;
    cbn [updateExplosionParticles]; [constructor|].
  inversion Hall as [|? ? [Hd Hl] Hrest]; subst.
  destruct (Particle.life (moveParticle delta p) <=? 0);
    [apply IH, Hrest|].
  constructor; [|apply IH, Hrest].
  destruct (moveParticle_life delta p) as [Hlife Hdecay].
  rewrite Hlife, Hdecay; split; lra.
Qed.

Lemma updateExplosionParticles_kills delta ps :
  Forall (fun p => Particle.life p <= Particle.decay p) ps ->
  updateExplosionParticles delta ps = [].
Proof.
  induction ps as [|p rest IH]; intros Hall;
    cbn [updateExplosionParticles]; [reflexivity|].
  inversion Hall as [|? ? Hp Hrest]; subst.
  rewrite (IH Hrest).
  replace (Particle.life (moveParticle delta p) <=? 0) with true;
    [reflexivity|].
  symmetry; apply Rleb_true.
  rewrite (proj1 (moveParticle_life delta p)); lra.
Qed.

Lemma updateParticles_nil deltas : updateParticles deltas [] = [].
Proof. induction deltas as [|d rest IH]; [reflexivity | exact IH]. Qed.

Lemma updateParticles_app l1 l2 ps :
  updateParticles (l1 ++ l2) ps = updateParticles l2 (updateParticles l1 ps).
Proof.
  revert ps; induction l1 as [|d rest IH]; intros ps; [reflexivity|].
  cbn [app updateParticles]; apply IH.
Qed.

Lemma particles_gone_after n d deltas ps :
  0 <= d ->
  Forall (fun p => d <= Particle.decay p
                   /\ Particle.life p <= INR (S n) * d) ps ->
  List.length deltas = S n ->
  updateParticles deltas ps = [].
Proof.
  intros Hd; revert deltas ps.
  induction n as [|n IH]; intros deltas ps Hall Hlen.
  - destruct deltas as [|delta [|? ?]]; try discriminate.
    cbn [updateParticles]. apply updateExplosionParticles_kills.
    revert Hall; apply Forall_impl; intros p [H1 H2].
    cbn [INR] in H2; lra.
  - destruct deltas as [|delta rest]; [discriminate|].
    cbn [updateParticles]. apply IH; [|cbn [List.length] in Hlen; lia].
    pose proof (updateExplosionParticles_ages delta ps d _ Hall) as H.
    revert H; apply Forall_impl; intros p [H1 H2]; split; [exact H1|].
    rewrite (S_INR (S n)) in H2. lra.
Qed.

Lemma newParticle_ages position d :
  unitDraws d ->
  0.01 <= Particle.decay (newParticle position d) < 0.03
  /\ Particle.life (newParticle position d) = 1.
Proof.
  intros (_ & _ & _ & _ & _ & _ & _ & _ & _ & Hd); unfold unitDraw in Hd.
  cbn [Particle.decay Particle.life newParticle]. lra.
Qed.

(** X18. An explosion is over within 100 frames: the particles that
    [createExplosion] makes, whatever [Math.random] has drawn, are all
    removed by the hundredth call of [updateExplosionParticles], whatever
    the frame times are, and none comes back after that. There are at most
    30 of them, and exactly 30 to begin with. *)
Theorem explosion_is_over_after_100_frames (position : Vector3)
  (draws : list Draws) (deltas : list R) :
  Forall unitDraws draws ->
  (100 <= List.length deltas)%nat ->
  updateParticles deltas (explosionParticlesAt position draws) = []
  /\ ((30 <= List.length draws)%nat ->
      List.length (explosionParticlesAt position draws) = 30%nat).
Proof.
  intros Hdraws Hlen; split.
  - rewrite <- (firstn_skipn 100 deltas), updateParticles_app.
    rewrite (particles_gone_after 99 0.01 (firstn 100 deltas));
      [apply updateParticles_nil | lra | | rewrite length_firstn; lia].
    unfold explosionParticlesAt. apply Forall_map.
    apply Forall_forall; intros d Hin.
    assert (Hd : unitDraws d).
    { apply (proj1 (Forall_forall _ _) Hdraws).
      rewrite <- (firstn_skipn particleCount draws).
      apply in_or_app; left; exact Hin. }
    destruct (newParticle_ages position d Hd) as [[Hlo _] Hlife].
    split; [exact Hlo|]. rewrite Hlife.
    replace (INR 100) with 100 by (cbn [INR]; lra). lra.
  - intros H30; unfold explosionParticlesAt, particleCount.
    rewrite length_map, length_firstn; lia.
Qed.

(** ** The drift variant *)

Lemma drift_car_height delta vs c :
  y (Car.position (snd (drift delta (vs, c)))) = y (Car.position c).
Proof.
  unfold drift; destruct (driftActive vs); [|reflexivity].
  destruct (steeringLeft _ || steeringRight _); reflexivity.
Qed.

Lemma driftMode_moveCar_height delta now0 vs c :
  y (Car.position (DriftMode.moveCar delta now0 vs c)) = y (Car.position c).
Proof. unfold DriftMode.moveCar; destruct (isDrifting vs); reflexivity. Qed.

Section DriftVariant.

Context {host : Host}.

Lemma driftMode_update delta now0 w c :
  car w = Some c ->
  DriftMode.updateVehiclePhysics delta now0 w
  = updateCarCamera delta
      (set_car
         (Some (DriftMode.moveCar delta now0
                  (fst (physicsState delta (vehicleState w) c))
                  (snd (physicsState delta (vehicleState w) c))))
         (set_vehicleState (fst (physicsState delta (vehicleState w) c)) w)).
Proof.
  intros Hc; unfold DriftMode.updateVehiclePhysics; rewrite Hc.
  destruct (physicsState delta (vehicleState w) c); reflexivity.
Qed.

(** X19. In the drift variant a call of [updateVehiclePhysics] keeps the
    velocity in [[-maxSpeed*0.3, maxSpeed]] and the drift factor in
    [[0, 1]] as in the race variant, and it never changes the height of the
    car, the game state, the store or the page: it has no ground level, no
    collision check and no race. *)
Theorem drift_variant_keeps_bounds_and_height (delta now0 : R) (w : World) :
  let w' := DriftMode.updateVehiclePhysics delta now0 w in
  0 <= delta -> inBounds (vehicleState w) ->
  inBounds (vehicleState w')
  /\ (forall c, car w = Some c ->
        exists c', car w' = Some c'
                   /\ y (Car.position c') = y (Car.position c))
  /\ gameState w' = gameState w
  /\ storedBestTime w' = storedBestTime w
  /\ ui w' = ui w
  /\ explosions w' = explosions w.
Proof.
  cbv zeta; intros Hd Hin.
  destruct (car w) as [c|] eqn:Hc.
  - rewrite (driftMode_update delta now0 w c Hc).
    rewrite updateCarCamera_vehicleState, updateCarCamera_car,
      updateCarCamera_gameState.
    match goal with |- context [storedBestTime (updateCarCamera delta ?w1)] =>
      destruct (updateCarCamera_others delta w1) as (Hs & Hu & He & _) end.
    rewrite Hs, Hu, He.
    split; [apply physicsState_inBounds; assumption|].
    split; [|repeat split].
    intros c0 Hc0; inversion Hc0; subst c0.
    eexists; split; [reflexivity|].
    rewrite driftMode_moveCar_height, physicsState_snd.
    apply drift_car_height.
  - unfold DriftMode.updateVehiclePhysics; rewrite Hc.
    split; [exact Hin|]. split; [intros c0 Hc0; discriminate|].
    repeat split.
Qed.

End DriftVariant.

(** ** The place of the camera *)

(** X20. The ideal camera position is straight behind the car: its distance
    from the car on the ground is [cameraDistance] times a scale and its
    height above the car is [cameraHeight] times the same scale, where the
    scale is 1 at rest and grows with the speed, up to
    [1 + 0.005 * maxSpeed] for a velocity within its bounds; the ideal
    look-at point is one unit above the point [cameraLookAhead + 0.2 * |v|]
    in front of the car. *)
Theorem camera_ideal_pose (vs : VehicleState) (c : Car.t) :
  let p := Car.position c in
  let ideal := idealPosition vs c in
  let target := idealLookAt vs c in
  let scale := 1 + Rabs (velocity vs * 0.1) * 0.05 in
  let ahead := cameraLookAhead vs + Rabs (velocity vs) * 0.2 in
  (x ideal - x p) * (x ideal - x p) + (z ideal - z p) * (z ideal - z p)
  = (cameraDistance vs * scale) * (cameraDistance vs * scale)
  /\ y ideal - y p = cameraHeight vs * scale
  /\ 1 <= scale
  /\ (inBounds vs -> scale <= 1 + 0.005 * maxSpeed vs)
  /\ (x target - x p) * (x target - x p) + (z target - z p) * (z target - z p)
     = ahead * ahead
  /\ y target = y p + 1
  /\ (x ideal - x p) * (x target - x p) + (z ideal - z p) * (z target - z p)
     = - (cameraDistance vs * scale * ahead).
Proof.
  cbv zeta.
  unfold idealPosition, idealLookAt, Vec.add, Vec.multiplyScalar.
  cbn [x y z].
  pose proof (sin2_cos2 (rotation vs)) as Hsc; unfold Rsqr in Hsc.
  pose proof (Rabs_pos (velocity vs * 0.1)) as Habs.
  assert (Hbound : inBounds vs ->
                   Rabs (velocity vs * 0.1) <= 0.1 * maxSpeed vs).
  { intros [[Hlo Hhi] _]. apply Rabs_le; lra. }
  generalize dependent (Rabs (velocity vs * 0.1)).
  intros a Ha Hbound.
  generalize (x (Car.position c)) as cx, (y (Car.position c)) as cy,
             (z (Car.position c)) as cz.
  intros cx cy cz.
  set (s := sin (rotation vs)) in *. set (k := cos (rotation vs)) in *.
  set (d := cameraDistance vs). set (l := cameraLookAhead vs).
  split; [|split; [|split; [|split; [|split; [|split]]]]].
  - replace ((cx + - s * d * (1 + a * 0.05) - cx)
             * (cx + - s * d * (1 + a * 0.05) - cx)
             + (cz + - k * d * (1 + a * 0.05) - cz)
               * (cz + - k * d * (1 + a * 0.05) - cz))
      with ((s * s + k * k) * ((d * (1 + a * 0.05)) * (d * (1 + a * 0.05))))
      by ring.
    rewrite Hsc; ring.
  - ring.
  - lra.
  - intros Hin; specialize (Hbound Hin); lra.
  - set (h := l + Rabs (velocity vs) * 0.2).
    replace ((cx + s * h - cx) * (cx + s * h - cx)
             + (cz + k * h - cz) * (cz + k * h - cz))
      with ((s * s + k * k) * (h * h)) by ring.
    rewrite Hsc; ring.
  - reflexivity.
  - set (h := l + Rabs (velocity vs) * 0.2).
    replace ((cx + - s * d * (1 + a * 0.05) - cx) * (cx + s * h - cx)
             + (cz + - k * d * (1 + a * 0.05) - cz) * (cz + k * h - cz))
      with (- ((s * s + k * k) * (d * (1 + a * 0.05) * h))) by ring.
    rewrite Hsc; ring.
Qed.

Section CameraApproach.

Context {host : Host}.

(** X21. With [delta > 0] and [cameraSmooth * delta] at most 1, the camera
    never overshoots: on each axis the distance left to the ideal position
    is the old one times [1 - cameraSmooth * delta], so the camera ends
    no farther from the ideal position than it was. *)
Theorem camera_never_overshoots (delta : R) (w : World) (c : Car.t) :
  let ideal := idealPosition (vehicleState w) c in
  let old := Camera.position (camera w) in
  let new := Camera.position (camera (updateCarCamera delta w)) in
  let alpha := cameraSmooth (vehicleState w) * delta in
  car w = Some c -> 0 < delta -> 0 <= alpha <= 1 ->
  x ideal - x new = (1 - alpha) * (x ideal - x old)
  /\ y ideal - y new = (1 - alpha) * (y ideal - y old)
  /\ z ideal - z new = (1 - alpha) * (z ideal - z old)
  /\ (x ideal - x new) * (x ideal - x new)
     + (y ideal - y new) * (y ideal - y new)
     + (z ideal - z new) * (z ideal - z new)
     <= (x ideal - x old) * (x ideal - x old)
        + (y ideal - y old) * (y ideal - y old)
        + (z ideal - z old) * (z ideal - z old).
Proof.
  cbv zeta; intros Hc Hd Ha.
  unfold updateCarCamera; rewrite Hc.
  replace (delta >? 0) with true by (symmetry; apply Rltb_true; lra).
  cbn [camera set_camera Camera.position Camera.lookAt Camera.set_position].
  unfold Vec.lerp; cbn [x y z].
  set (alpha := cameraSmooth (vehicleState w) * delta) in *.
  generalize (x (idealPosition (vehicleState w) c)) as ix,
             (y (idealPosition (vehicleState w) c)) as iy,
             (z (idealPosition (vehicleState w) c)) as iz,
             (x (Camera.position (camera w))) as ox,
             (y (Camera.position (camera w))) as oy,
             (z (Camera.position (camera w))) as oz.
  intros ix iy iz ox oy oz.
  assert (Hx : ix - (ox + (ix - ox) * alpha) = (1 - alpha) * (ix - ox))
    by ring.
  assert (Hy : iy - (oy + (iy - oy) * alpha) = (1 - alpha) * (iy - oy))
    by ring.
  assert (Hz : iz - (oz + (iz - oz) * alpha) = (1 - alpha) * (iz - oz))
    by ring.
  rewrite Hx, Hy, Hz. repeat split.
  assert (Hsq : (1 - alpha) * (1 - alpha) <= 1).
  { destruct Ha as [Ha0 Ha1].
    assert (H : 0 <= alpha * (2 - alpha))
      by (apply Rmult_le_pos; lra).
    lra. }
  assert (H0 : 0 <= (ix - ox) * (ix - ox) + (iy - oy) * (iy - oy)
                    + (iz - oz) * (iz - oz)).
  { pose proof (Rle_0_sqr (ix - ox)) as Hx2.
    pose proof (Rle_0_sqr (iy - oy)) as Hy2.
    pose proof (Rle_0_sqr (iz - oz)) as Hz2.
    unfold Rsqr in Hx2, Hy2, Hz2; lra. }
  replace ((1 - alpha) * (ix - ox) * ((1 - alpha) * (ix - ox))
           + (1 - alpha) * (iy - oy) * ((1 - alpha) * (iy - oy))
           + (1 - alpha) * (iz - oz) * ((1 - alpha) * (iz - oz)))
    with ((1 - alpha) * (1 - alpha)
          * ((ix - ox) * (ix - ox) + (iy - oy) * (iy - oy)
             + (iz - oz) * (iz - oz))) by ring.
  set (S0 := (ix - ox) * (ix - ox) + (iy - oy) * (iy - oy)
             + (iz - oz) * (iz - oz)) in *.
  assert (H1 : 0 <= (1 - (1 - alpha) * (1 - alpha)) * S0)
    by (apply Rmult_le_pos; lra).
  lra.
Qed.

End CameraApproach.

(** ** Accelerator and brake *)

Lemma steer_brake b delta vs :
  steer delta (set_control Brake b vs) = set_control Brake b (steer delta vs).
Proof. reflexivity. Qed.

Lemma accelerate_brake b delta vs :
  accelerating vs = true ->
  accelerate delta (set_control Brake b vs)
  = set_control Brake b (accelerate delta vs).
Proof.
  intros Ha; unfold accelerate.
  change (accelerating (set_control Brake b vs)) with (accelerating vs).
  rewrite Ha; reflexivity.
Qed.

Lemma drift_brake b delta vs c :
  drift delta (set_control Brake b vs, c)
  = (set_control Brake b (fst (drift delta (vs, c))),
     snd (drift delta (vs, c))).
Proof.
  unfold drift.
  change (driftActive (set_control Brake b vs)) with (driftActive vs).
  destruct (driftActive vs).
  - cbn [steeringLeft steeringRight set_velocity set_driftFactor
         set_isDrifting set_control set_controls in_steeringLeft
         in_steeringRight].
    destruct (steeringLeft vs || steeringRight vs); reflexivity.
  - cbn [driftFactor set_driftFactor set_driftAngle set_driftVelocity
         set_control set_controls].
    destruct (_ <? _); reflexivity.
Qed.

Lemma applySteering_brake b delta vs :
  applySteering delta (set_control Brake b vs)
  = set_control Brake b (applySteering delta vs).
Proof.
  unfold applySteering.
  change (velocity (set_control Brake b vs)) with (velocity vs).
  destruct (_ <? _); reflexivity.
Qed.

Lemma moveCar_brake b delta now0 ground vs c :
  moveCar delta now0 ground (set_control Brake b vs) c
  = moveCar delta now0 ground vs c.
Proof. reflexivity. Qed.

(** X22. The accelerator wins over the brake: with [accelerating] set, the
    physics of a frame moves the car and changes the vehicle state in the
    same way whether [braking] is set or not. *)
Theorem accelerator_wins_over_brake (b : bool) (delta now0 ground : R)
  (vs : VehicleState) (c : Car.t) :
  accelerating vs = true ->
  fst (physicsStep delta now0 ground (set_control Brake b vs) c)
  = set_control Brake b (fst (physicsStep delta now0 ground vs c))
  /\ snd (physicsStep delta now0 ground (set_control Brake b vs) c)
     = snd (physicsStep delta now0 ground vs c)
  /\ velocity (fst (physicsStep delta now0 ground (set_control Brake b vs) c))
     = velocity (fst (physicsStep delta now0 ground vs c)).
Proof.
  intros Ha.
  assert (Hps : physicsState delta (set_control Brake b vs) c
                = (set_control Brake b (fst (physicsState delta vs c)),
                   snd (physicsState delta vs c))).
  { unfold physicsState.
    rewrite steer_brake, accelerate_brake by exact Ha.
    rewrite drift_brake.
    destruct (drift delta (accelerate delta (steer delta vs), c))
      as [vs2 c2]; cbn [fst snd].
    change (limitSpeed (set_control Brake b vs2))
      with (set_control Brake b (limitSpeed vs2)).
    rewrite applySteering_brake; reflexivity. }
  assert (Hst : physicsStep delta now0 ground (set_control Brake b vs) c
                = (set_control Brake b
                     (fst (physicsStep delta now0 ground vs c)),
                   snd (physicsStep delta now0 ground vs c))).
  { unfold physicsStep; rewrite Hps.
    destruct (physicsState delta vs c) as [vs3 c3]; cbn [fst snd].
    rewrite moveCar_brake; reflexivity. }
  rewrite Hst; cbn [fst snd]. repeat split.
Qed.

Lemma braking_velocity delta vs c :
  accelerating vs = false -> braking vs = true ->
  handbrake vs = false
  \/ Rabs (velocity vs - brakeForce vs * delta) <= 3 ->
  velocity (fst (physicsState delta vs c))
  = clamp (velocity vs - brakeForce vs * delta)
          (- maxSpeed vs * 0.3) (maxSpeed vs).
Proof.
  intros Ha Hb Hoff; rewrite physicsState_velocity.
  assert (Hacc : velocity (accelerate delta vs)
                 = velocity vs - brakeForce vs * delta)
    by (unfold accelerate; rewrite Ha, Hb; reflexivity).
  rewrite drift_inactive_velocity.
  - rewrite accelerate_velocity_steer, Hacc; reflexivity.
  - rewrite driftActive_after_acceleration, Hacc.
    destruct Hoff as [Hh | Hslow].
    + rewrite Hh; reflexivity.
    + apply andb_false_iff; right; apply Rltb_false; exact Hslow.
Qed.

Section Braking.

Context {host : Host}.

Lemma run_inBounds frames w :
  Forall (fun f => 0 <= elapsed f) frames ->
  inBounds (vehicleState w) -> inBounds (vehicleState (run frames w)).
Proof.
  revert w; induction frames as [|f rest IH]; intros w Hall Hb; cbn [run].
  - exact Hb.
  - inversion Hall as [|? ? Hf Hrest]; subst.
    apply IH; [exact Hrest|]. apply frame_inBounds; assumption.
Qed.

(** X23. The brake is also the reverse gear: with [braking] set, the
    accelerator released and the drift system out of the step, a call of
    [updateVehiclePhysics] that does not end the race lowers the velocity
    strictly as long as it is above [-0.3 * maxSpeed], never below that, and
    leaves it there once it is reached; from rest the car starts to roll
    backwards. *)
Theorem brake_lowers_velocity_to_the_reverse_cap (delta now0 : R) (w : World)
  (c : Car.t) :
  let vs := vehicleState w in
  let w' := updateVehiclePhysics delta now0 w in
  car w = Some c -> raceOn (gameState w) = true ->
  accelerating vs = false -> braking vs = true ->
  handbrake vs = false \/ Rabs (velocity vs - brakeForce vs * delta) <= 3 ->
  0 < brakeForce vs -> 0 <= maxSpeed vs -> 0 < delta ->
  inBounds vs ->
  raceOn (gameState w') = true ->
  - maxSpeed vs * 0.3 <= velocity (vehicleState w') <= velocity vs
  /\ (- maxSpeed vs * 0.3 < velocity vs ->
      velocity (vehicleState w') < velocity vs)
  /\ (velocity vs = 0 -> velocity (vehicleState w') < 0 \/ maxSpeed vs = 0).
Proof.
  cbv zeta; intros Hc Hon Ha Hb Hoff Hbf Hm Hd [[Hlo Hhi] _] Hon'.
  assert (Hv : velocity (vehicleState (updateVehiclePhysics delta now0 w))
               = clamp (velocity (vehicleState w)
                        - brakeForce (vehicleState w) * delta)
                       (- maxSpeed (vehicleState w) * 0.3)
                       (maxSpeed (vehicleState w))).
  { destruct (updateVehiclePhysics_cases delta now0 w)
      as [_ [Hn | Hskip] | c1 Hc1 _ _ Hvs _ | c1 _ _ _ Hend _ _ _];
      try congruence.
    assert (c1 = c) by congruence; subst c1.
    rewrite Hvs; apply braking_velocity; assumption. }
  rewrite Hv.
  assert (Hbd : 0 < brakeForce (vehicleState w) * delta)
    by (apply Rmult_lt_0_compat; assumption).
  unfold clamp, Rmax, Rmin.
  destruct (Rle_dec (maxSpeed (vehicleState w)) _);
    destruct (Rle_dec (- maxSpeed (vehicleState w) * 0.3) _);
    repeat split; intros; lra.
Qed.

(** X24. A reset puts the vehicle state within its bounds, and it stays
    there: after [resetCar] on a loaded car, whatever frames follow, the
    velocity is in [[-maxSpeed*0.3, maxSpeed]], the drift factor in
    [[0, 1]]; right after the reset the car stands at the origin of the
    track on ground level, at rest, with the steering straight and the
    drift off, while the five control flags are the ones from before the
    reset. *)
Theorem reset_establishes_the_bounds (w : World) (c : Car.t)
  (frames : list Frame) :
  car w = Some c -> 0 <= maxSpeed (vehicleState w) ->
  Forall (fun f => 0 <= elapsed f) frames ->
  let w0 := resetCar w in
  inBounds (vehicleState (run frames w0))
  /\ velocity (vehicleState w0) = 0
  /\ steerAngle (vehicleState w0) = 0
  /\ isDrifting (vehicleState w0) = false
  /\ driftFactor (vehicleState w0) = 0
  /\ rotation (vehicleState w0) = PI
  /\ car w0 = Some (Car.mk (mkVector3 0 (carGroundLevel (gameState w)) 0)
                           (mkVector3 0 (- PI / 2) 0) true)
  /\ (forall k, control_flag k (vehicleState w0)
                = control_flag k (vehicleState w)).
Proof.
  cbv zeta; intros Hc Hm Hall.
  destruct (resetCar_loaded w c Hc) as (Hcar & Hvs & _).
  split.
  - apply run_inBounds; [exact Hall|].
    rewrite Hvs; unfold inBounds; cbn [velocity driftFactor maxSpeed
                                        resetVehicle]. lra.
  - rewrite Hvs, Hcar. repeat split.
Qed.

End Braking.

(** ** The further statements at work on the examples *)

Lemma sampleWorld_inBounds : inBounds (vehicleState sampleWorld).
Proof. unfold inBounds; cbn [vehicleState sampleWorld velocity driftFactor
                              maxSpeed set_rotation initialVehicleState].
  lra.
Qed.

Lemma coastingWorld_inBounds : inBounds (vehicleState coastingWorld).
Proof. unfold inBounds; cbn [vehicleState coastingWorld set_vehicleState
                              sampleWorld velocity driftFactor maxSpeed
                              set_velocity set_rotation initialVehicleState].
  lra.
Qed.

(** X1 while rolling at velocity 10. *)
Lemma coasting_from_10 :
  inBounds (vehicleState coastingWorld)
  /\ 0 <= velocity (vehicleState
                      (@updateVehiclePhysics sampleHost 0.05 0 coastingWorld))
     <= 10.
Proof.
  split; [exact coastingWorld_inBounds|].
  refine (proj1 (@coasting_slows_without_reversing sampleHost 0.05 0
                   coastingWorld eq_refl eq_refl _ _ _
                   coastingWorld_inBounds) _);
    cbn [vehicleState coastingWorld set_vehicleState sampleWorld velocity
         friction driftFriction set_velocity set_rotation
         initialVehicleState]; lra.
Defined.


(** X3 on the start line. *)
Lemma standing_on_the_start_line :
  velocity (vehicleState sampleWorld) = 0
  /\ velocity (vehicleState
                 (@updateVehiclePhysics sampleHost 0.05 0 sampleWorld)) = 0.
Proof.
  split; [reflexivity|].
  refine (proj1 (@car_at_rest_stays_put sampleHost 0.05 0 sampleWorld
                   sampleCar eq_refl eq_refl eq_refl eq_refl _)).
  cbn [vehicleState sampleWorld maxSpeed set_rotation initialVehicleState].
  lra.
Defined.

(** X4 on the start line. *)
Lemma way_made_from_the_start_line :
  handbrake (vehicleState sampleWorld) = false
  /\ exists c',
       car (@updateVehiclePhysics sampleHost 0.05 0 sampleWorld) = Some c'
       /\ (x (Car.position c') - 0) * (x (Car.position c') - 0)
          + (z (Car.position c') - 0) * (z (Car.position c') - 0)
          <= (25 * 0.05) * (25 * 0.05).
Proof.
  split; [reflexivity|].
  assert (Hd : 0 <= 0.05) by lra.
  destruct (@way_made_in_one_frame sampleHost 0.05 0 sampleWorld sampleCar
              eq_refl eq_refl sampleWorld_inBounds Hd)
    as (c' & Hcar & Hway & _).
  exists c'; split; [exact Hcar | exact Hway].
Defined.

(** X5 on the start line: nothing drifts there. *)
Lemma no_drift_on_the_start_line :
  car sampleWorld = Some sampleCar
  /\ isDrifting (vehicleState
                   (@updateVehiclePhysics sampleHost 0.05 0 sampleWorld))
     = false.
Proof.
  split; [reflexivity|].
  apply (proj2 (@drift_flag_gate sampleHost 0.05 0 sampleWorld sampleCar
                  eq_refl eq_refl));
    left; reflexivity.
Defined.

Lemma sample_box_not_empty :
  Box.isEmpty (sampleSetFromObject sampleCar) = false.
Proof.
  apply isEmpty_false.
  cbn [sampleSetFromObject sampleCar Car.position x y z min max]. lra.
Qed.

(** X6 for the box of the car of the examples. *)
Lemma reduced_sample_box_within :
  Box.isEmpty (sampleSetFromObject sampleCar) = false
  /\ boxWithin (reducedCarBox (sampleSetFromObject sampleCar))
               (sampleSetFromObject sampleCar).
Proof.
  split; [exact sample_box_not_empty|].
  apply (reduced_box_within_car_box (sampleSetFromObject sampleCar)
           sample_box_not_empty).
Defined.

Lemma emptyBox_empty : Box.isEmpty emptyBox = true.
Proof.
  unfold Box.isEmpty, emptyBox; cbn [x y z min max].
  replace (0 <? 1) with true by (symmetry; apply Rltb_true; lra).
  reflexivity.
Qed.

(** X7 for a box with its corners the wrong way round. *)
Lemma empty_box_hits_a_tree_at_the_origin :
  Box.isEmpty emptyBox = true
  /\ Box.intersectsBox (reducedCarBox emptyBox)
       (obstacleBB (mkVector3 0 0 0)) = true.
Proof.
  split; [exact emptyBox_empty|].
  apply (empty_car_box_is_the_origin emptyBox 0 emptyBox_empty).
Defined.


(** X11 for a frame of half a second on the start line. *)
Lemma long_frame_counts_a_tenth :
  isPlaying (gameState sampleWorld) = true
  /\ raceTime (gameState (@frame sampleHost longFrame sampleWorld))
     = 0 + Rmin 0.5 0.1.
Proof.
  split; [reflexivity|].
  apply (proj1 (@race_time_advances_by_clamped_frames sampleHost sampleWorld)
           longFrame eq_refl).
Defined.

(** X13 from the page of the examples. *)
Lemma race_starts_on_the_start_line :
  car (world samplePage) = Some sampleCar
  /\ velocity (vehicleState
                 (world (raceTimeout
                           (countIntervals 4
                              (@startCountdown sampleHost samplePage)))))
     = 0.
Proof.
  split; [reflexivity|].
  apply (proj2 (proj2 (proj2 (proj2
           (@countdown_takes_four_ticks sampleHost samplePage))))
           sampleCar eq_refl).
Defined.

(** X14 with the key R after a lost race. *)
Lemma capital_r_restarts_after_a_loss :
  toLowerCase "R" = "r"%string
  /\ isCountingDown
       (gameState (world (@onKeyDown sampleHost "R" lostPage))) = true.
Proof.
  split; [reflexivity|].
  apply (proj1 (@restart_key_only_when_idle sampleHost "R" lostPage eq_refl)
           eq_refl eq_refl).
Defined.


(** X16 with the left arrow released after a lost race. *)
Lemma left_arrow_released_after_a_loss :
  keyControl (toLowerCase "ArrowLeft") = Some SteerLeft
  /\ steeringLeft (vehicleState (world lostPage)) = true
  /\ steeringLeft
       (vehicleState (world (onKeyUp "ArrowLeft" lostPage)))
     = false.
Proof.
  split; [reflexivity|]. split; [reflexivity|].
  apply (proj1 (release_clears_the_flag lostPage SteerLeft)
           "ArrowLeft"%string eq_refl).
Defined.

Lemma sampleDraws_unit : unitDraws sampleDraws.
Proof. unfold unitDraws, unitDraw; cbn; repeat split; lra. Qed.

(** X18 for thirty particles at 60 frames a second. *)
Lemma explosion_of_the_examples_ends :
  Forall unitDraws (repeat sampleDraws 30)
  /\ updateParticles (repeat 0.016 100)
       (explosionParticlesAt (mkVector3 0 0.1 0) (repeat sampleDraws 30))
     = [].
Proof.
  assert (Hd : Forall unitDraws (repeat sampleDraws 30)).
  { apply Forall_forall; intros d Hin.
    apply repeat_spec in Hin; subst d; exact sampleDraws_unit. }
  split; [exact Hd|].
  apply (explosion_is_over_after_100_frames (mkVector3 0 0.1 0)
           (repeat sampleDraws 30) (repeat 0.016 100) Hd).
  rewrite repeat_length; apply Nat.le_refl.
Defined.

(** X19 on the start line. *)
Lemma drift_variant_on_the_start_line :
  inBounds (vehicleState sampleWorld)
  /\ inBounds (vehicleState
                 (@DriftMode.updateVehiclePhysics sampleHost 0.05 0
                    sampleWorld)).
Proof.
  split; [exact sampleWorld_inBounds|].
  assert (Hd : 0 <= 0.05) by lra.
  apply (@drift_variant_keeps_bounds_and_height sampleHost 0.05 0 sampleWorld
           Hd sampleWorld_inBounds).
Defined.

(** X20 at rest. *)
Lemma camera_scale_at_rest :
  inBounds (vehicleState sampleWorld)
  /\ 1 + Rabs (velocity (vehicleState sampleWorld) * 0.1) * 0.05
     <= 1 + 0.005 * maxSpeed (vehicleState sampleWorld).
Proof.
  split; [exact sampleWorld_inBounds|].
  apply (proj1 (proj2 (proj2 (proj2
           (camera_ideal_pose (vehicleState sampleWorld) sampleCar))))
           sampleWorld_inBounds).
Defined.

(** X21 on the start line, with a frame of 0.05 s. *)
Lemma camera_approaches_on_the_start_line :
  0 <= cameraSmooth (vehicleState sampleWorld) * 0.05 <= 1
  /\ y (idealPosition (vehicleState sampleWorld) sampleCar)
     - y (Camera.position
            (camera (@updateCarCamera sampleHost 0.05 sampleWorld)))
     = (1 - cameraSmooth (vehicleState sampleWorld) * 0.05)
       * (y (idealPosition (vehicleState sampleWorld) sampleCar)
          - y (Camera.position (camera sampleWorld))).
Proof.
  assert (Ha : 0 <= cameraSmooth (vehicleState sampleWorld) * 0.05 <= 1).
  { cbn [vehicleState sampleWorld cameraSmooth set_rotation
         initialVehicleState]. lra. }
  assert (Hd : 0 < 0.05) by lra.
  split; [exact Ha|].
  apply (proj1 (proj2 (@camera_never_overshoots sampleHost 0.05 sampleWorld
                         sampleCar eq_refl Hd Ha))).
Defined.

(** X22 in free roam with the accelerator held. *)
Lemma brake_changes_nothing_with_the_accelerator_held :
  accelerating (vehicleState (roaming false)) = true
  /\ snd (physicsStep 0.05 0 0.1
            (set_control Brake true (vehicleState (roaming false))) sampleCar)
     = snd (physicsStep 0.05 0 0.1 (vehicleState (roaming false)) sampleCar).
Proof.
  split; [reflexivity|].
  apply (proj1 (proj2 (accelerator_wins_over_brake true 0.05 0 0.1
                         (vehicleState (roaming false)) sampleCar eq_refl))).
Defined.

(** X23 in free roam, from rest. *)
Lemma braking_from_rest_rolls_back :
  braking (vehicleState reversingWorld) = true
  /\ velocity (vehicleState reversingWorld) = 0
  /\ velocity (vehicleState
                 (@updateVehiclePhysics sampleHost 0.05 0 reversingWorld))
     < 0.
Proof.
  split; [reflexivity|]. split; [reflexivity|].
  assert (Hin : inBounds (vehicleState reversingWorld)).
  { unfold inBounds; cbn [vehicleState reversingWorld set_gameState
                            set_vehicleState set_control set_controls
                            sampleWorld velocity driftFactor maxSpeed
                            set_rotation initialVehicleState]. lra. }
  assert (Hon : raceOn (gameState
                  (@updateVehiclePhysics sampleHost 0.05 0 reversingWorld))
                = true)
    by (rewrite free_roam_keeps_gameState; reflexivity).
  assert (Hb : 0 < brakeForce (vehicleState reversingWorld))
    by (cbn [vehicleState reversingWorld set_gameState set_vehicleState
             set_control set_controls sampleWorld brakeForce set_rotation
             initialVehicleState]; lra).
  assert (Hm : 0 <= maxSpeed (vehicleState reversingWorld))
    by (cbn [vehicleState reversingWorld set_gameState set_vehicleState
             set_control set_controls sampleWorld maxSpeed set_rotation
             initialVehicleState]; lra).
  assert (Hd : 0 < 0.05) by lra.
  destruct (@brake_lowers_velocity_to_the_reverse_cap sampleHost 0.05 0
              reversingWorld sampleCar eq_refl eq_refl eq_refl eq_refl
              (or_introl eq_refl) Hb Hm Hd Hin Hon) as (_ & Hlow & _).
  apply Hlow.
  cbn [vehicleState reversingWorld set_gameState set_vehicleState
       set_control set_controls sampleWorld velocity maxSpeed set_rotation
       initialVehicleState]. lra.
Defined.

(** X24 for a reset on the start line followed by a long frame. *)
Lemma bounds_after_a_reset :
  car sampleWorld = Some sampleCar
  /\ inBounds (vehicleState
                 (@run sampleHost [longFrame]
                    (@resetCar sampleHost sampleWorld))).
Proof.
  split; [reflexivity|].
  assert (Hm : 0 <= maxSpeed (vehicleState sampleWorld))
    by (cbn [vehicleState sampleWorld maxSpeed set_rotation
             initialVehicleState]; lra).
  assert (Hf : Forall (fun f => 0 <= elapsed f) [longFrame]).
  { constructor; [cbn [elapsed longFrame]; lra | constructor]. }
  apply (proj1 (@reset_establishes_the_bounds sampleHost sampleWorld sampleCar
                  [longFrame] eq_refl Hm Hf)).
Defined.
